(** * Link audit service: link classification, queue order, job identity, retries

    A shallow embedding of the execution plane of the link checker:
    - [LinkAnalyzer.findTargetLinks] (services/linkAnalyzer.ts) and
      [ScrapeDoService.extractLinksFromHtml] (services/scrapeDoService.ts),
      the two link classifiers;
    - [QueueService] (services/queueService.ts), the Redis sorted-set queue,
      with its worker, its events and its statistics;
    - [BullMQService] (services/bullmqService.ts), the BullMQ queue, and
      [ManualLinksController.startLinkAnalysis], which fills it;
    - [LinkAnalyzer.analyzeLink] with its indexability check and its fallback
      through [ScrapeDoService] (request, retries, canonical URL, robots meta);
    - [FileProcessor] (services/fileProcessor.ts), the CSV import.

    JavaScript strings are modelled as [string], one [ascii] per code unit in
    the range U+0000..U+00FF.  Times are integer milliseconds since the epoch
    ([Z]).  JavaScript numbers that the code computes with are integers far
    below 2^53 in magnitude, where double arithmetic is exact, so they are
    modelled as [Z] (see [calculateScore_safe_integer]).  What the services
    get from outside (the browser's DOM queries, the clock, the random id
    suffix, the user row, the analyser, the repository) enters the
    definitions as arguments. *)

From Stdlib Require Import ZArith List String Ascii Bool Lia.
From stdpp Require Import base gmap strings pretty.
Import ListNotations.
Local Open Scope string_scope.

(** ** JavaScript string primitives used by the services *)
Module JS.

(** [String.prototype.toLowerCase] on one code unit of the Latin-1 range. *)
Definition lowerChar (c : ascii) : ascii :=
  let n := nat_of_ascii c in
  if (Nat.leb 65 n && Nat.leb n 90)
     || (Nat.leb 192 n && Nat.leb n 222 && negb (Nat.eqb n 215))
  then ascii_of_nat (n + 32) else c.

Fixpoint toLowerCase (s : string) : string :=
  match s with
  | EmptyString => EmptyString
  | String c s' => String (lowerChar c) (toLowerCase s')
  end.

(** [hay.includes(needle)] *)
Fixpoint includes (hay needle : string) : bool :=
  if String.prefix needle hay then true
  else match hay with
       | EmptyString => false
       | String _ hay' => includes hay' needle
       end.

Definition endsWith (s suffix : string) : bool :=
  let n := String.length s in
  let k := String.length suffix in
  if Nat.ltb n k then false
  else String.eqb (substring (n - k) k s) suffix.

(** [s.replace(/^p/, '')] for a literal prefix [p]. *)
Definition dropPrefix (p s : string) : string :=
  if String.prefix p s
  then substring (String.length p) (String.length s - String.length p) s
  else s.

(** Truthiness of a string: the empty string is falsy. *)
Definition truthy (s : string) : bool := negb (String.eqb s "").

(** White space as [trim] sees it, within the modelled code units. *)
Definition isWhiteSpace (c : ascii) : bool :=
  let n := nat_of_ascii c in
  (Nat.leb 9 n && Nat.leb n 13) || Nat.eqb n 32 || Nat.eqb n 160.

Fixpoint trimStart (s : string) : string :=
  match s with
  | EmptyString => EmptyString
  | String c s' => if isWhiteSpace c then trimStart s' else s
  end.

Fixpoint trimEnd (s : string) : string :=
  match s with
  | EmptyString => EmptyString
  | String c s' =>
      match trimEnd s' with
      | EmptyString => if isWhiteSpace c then EmptyString else String c EmptyString
      | t => String c t
      end
  end.

(** [s.trim()] *)
Definition trim (s : string) : string := trimEnd (trimStart s).

(** [s.split(sep)] for a separator of one character. *)
Fixpoint split (sep : ascii) (s : string) : list string :=
  match s with
  | EmptyString => [EmptyString]
  | String c s' =>
      if Ascii.eqb c sep then EmptyString :: split sep s'
      else match split sep s' with
           | piece :: rest => String c piece :: rest
           | [] => [String c EmptyString]
           end
  end.

End JS.

(** ** A backtracking matcher for the regular expressions of the source

    The patterns used by the classifiers are sequences of single-character
    classes, greedy and lazy repetitions of a class, and capture groups.  The
    matcher follows ECMAScript's backtracking order: a greedy repetition tries
    the longest run first, a lazy one the shortest. *)
Module Regex.

Inductive atom : Type :=
| Cls (f : ascii -> bool)
| Star (f : ascii -> bool)
| Lazy (f : ascii -> bool)
| Open
| Close.

Record mstate : Type := MState {
  consumed : list ascii;
  opened : option (list ascii);
  groups : list string
}.

Definition init : mstate := MState [] None [].

Definition push (d : ascii) (st : mstate) : mstate :=
  MState (d :: consumed st)
         (match opened st with Some g => Some (d :: g) | None => None end)
         (groups st).

Definition openGroup (st : mstate) : mstate :=
  MState (consumed st) (Some []) (groups st).

Definition closeGroup (st : mstate) : mstate :=
  MState (consumed st) None
         (groups st ++ [string_of_list_ascii
                          (rev (match opened st with Some g => g | None => [] end))]).

Fixpoint run (p : list atom) (st : mstate) (s : string) {struct p}
  : option (mstate * string) :=
  match p with
  | [] => Some (st, s)
  | Cls f :: p' =>
      match s with
      | String d s' => if f d then run p' (push d st) s' else None
      | EmptyString => None
      end
  | Open :: p' => run p' (openGroup st) s
  | Close :: p' => run p' (closeGroup st) s
  | Star f :: p' =>
      (fix star (st : mstate) (s : string) {struct s} : option (mstate * string) :=
         match s with
         | String d s' =>
             if f d then
               match star (push d st) s' with
               | Some r => Some r
               | None => run p' st s
               end
             else run p' st s
         | EmptyString => run p' st s
         end) st s
  | Lazy f :: p' =>
      (fix lazy (st : mstate) (s : string) {struct s} : option (mstate * string) :=
         match run p' st s with
         | Some r => Some r
         | None =>
             match s with
             | String d s' => if f d then lazy (push d st) s' else None
             | EmptyString => None
             end
         end) st s
  end.

(** The result array of [exec]/[match]: element 0 and the capture groups. *)
Record result : Type := Result {
  whole : string;
  captures : list string
}.

Definition matchAt (p : list atom) (s : string) : option result :=
  match run p init s with
  | Some (st, _) => Some (Result (string_of_list_ascii (rev (consumed st))) (groups st))
  | None => None
  end.

(** [s.match(re)] without the g flag: the leftmost match. *)
Fixpoint search (p : list atom) (s : string) : option result :=
  match matchAt p s with
  | Some r => Some r
  | None =>
      match s with
      | String _ s' => search p s'
      | EmptyString => None
      end
  end.

(** [while ((m = re.exec(s)) !== null)] with the g flag: successive matches,
    each search resuming at the end of the previous match ([lastIndex]).
    [skip] counts the characters of the previous match still to step over.
    The patterns of the source consume at least one character. *)
Fixpoint execAll (p : list atom) (skip : nat) (s : string) : list result :=
  match skip with
  | S k =>
      match s with
      | String _ s' => execAll p k s'
      | EmptyString => []
      end
  | O =>
      match matchAt p s with
      | Some r =>
          r :: match s with
               | String _ s' => execAll p (String.length (whole r) - 1) s'
               | EmptyString => []
               end
      | None =>
          match s with
          | String _ s' => execAll p 0 s'
          | EmptyString => []
          end
      end
  end.

(** Character classes.  Under the i flag a pattern letter matches both of its
    cases; the literals of the source are ASCII. *)
Definition asciiLower (c : ascii) : ascii :=
  let n := nat_of_ascii c in
  if Nat.leb 65 n && Nat.leb n 90 then ascii_of_nat (n + 32) else c.

Definition lit (c : ascii) : atom :=
  Cls (fun d => Ascii.eqb (asciiLower d) (asciiLower c)).

Definition isSpace (d : ascii) : bool :=
  let n := nat_of_ascii d in
  (Nat.leb 9 n && Nat.leb n 13) || Nat.eqb n 32 || Nat.eqb n 160.

(** The class of the two quote characters, code units 34 and 39. *)
Definition isQuote (d : ascii) : bool :=
  let n := nat_of_ascii d in Nat.eqb n 34 || Nat.eqb n 39.

Definition notQuote (d : ascii) : bool := negb (isQuote d).

Definition notGt (d : ascii) : bool := negb (Ascii.eqb d ">").

(** [.] without the s flag: anything but a line terminator. *)
Definition dot (d : ascii) : bool :=
  let n := nat_of_ascii d in negb (Nat.eqb n 10 || Nat.eqb n 13).

End Regex.

(** ** The analysis verdict's link class (models/ManualLink.ts) *)
Inductive LinkType : Type :=
| dofollow | nofollow | sponsored | ugc | not_found.

(** The return value of both classifiers:
    [{ found, linkType, fullATag? }]. *)
Record LinkFinding : Type := Finding {
  found : bool;
  linkType : LinkType;
  fullATag : option string
}.

Definition notFound : LinkFinding := Finding false not_found None.

(** [...(x && { x })] and [x || undefined]: an empty string is dropped. *)
Definition nonEmpty (s : string) : option string :=
  if JS.truthy s then Some s else None.

(** The result of both indexability checks: [{ indexable, reason? }]. *)
Record Indexability : Type := {
  indexable : bool;
  reason : option string
}.

(** Truthiness of a value of type [string | null | undefined]. *)
Definition present (x : option string) : option string :=
  match x with
  | Some s => nonEmpty s
  | None => None
  end.

(** ** LinkAnalyzer.findTargetLinks (services/linkAnalyzer.ts) *)
Module LinkAnalyzer.

Inductive CarrierType : Type :=
| anchor | area | javascript | data_attribute | event_handler
| svg | image_link | form_action.

(** One link carrier that the browser-side script visits, in the order of its
    eight passes.  [hostname] is the host of the carrier's URL resolved against
    the document, [None] when [new URL] throws; [relAttr] is
    [getAttribute('rel')]; [source] is the element's [outerHTML], or the URL
    literal for a carrier found in a script body. *)
Record Carrier : Type := {
  ctype : CarrierType;
  hostname : option string;
  resolved : string;
  relAttr : option string;
  source : string
}.

Record TargetLink : Type := {
  href : string;
  rel : string;
  fullTag : string;
  type : CarrierType
}.

(** [url.hostname === domain || url.hostname.endsWith('.' + domain)] *)
Definition hostMatches (host domain : string) : bool :=
  String.eqb host domain || JS.endsWith host ("." ++ domain).

Definition relOf (c : Carrier) : string :=
  match ctype c with
  | javascript | form_action => EmptyString
  | _ => match relAttr c with Some r => r | None => EmptyString end
  end.

Definition fullTagOf (c : Carrier) : string :=
  match ctype c with
  | javascript => "<script>..." ++ source c ++ "...</script>"
  | _ => source c
  end.

(** The array returned by [page.evaluate]. *)
Fixpoint targetLinks (carriers : list Carrier) (domain : string) : list TargetLink :=
  match carriers with
  | [] => []
  | c :: cs =>
      match hostname c with
      | Some h =>
          if hostMatches h domain
          then {| href := resolved c; rel := relOf c;
                  fullTag := fullTagOf c; type := ctype c |}
               :: targetLinks cs domain
          else targetLinks cs domain
      | None => targetLinks cs domain
      end
  end.

(** The mutable flags of the [links.forEach] loop. *)
Record Flags : Type := {
  hasDofollow : bool;
  hasNofollow : bool;
  hasSponsored : bool;
  hasUgc : bool;
  firstFullTag : string
}.

Definition noFlags : Flags :=
  {| hasDofollow := false; hasNofollow := false; hasSponsored := false;
     hasUgc := false; firstFullTag := EmptyString |}.

(** One iteration of the loop body, for the link at position [index]. *)
Definition visit (fl : Flags) (index : nat) (link : TargetLink) : Flags :=
  let r := JS.toLowerCase (rel link) in
  {| hasNofollow := if JS.includes r "nofollow" then true else hasNofollow fl;
     hasSponsored := if JS.includes r "sponsored" then true else hasSponsored fl;
     hasUgc := if JS.includes r "ugc" then true else hasUgc fl;
     hasDofollow := if negb (JS.includes r "nofollow") then true else hasDofollow fl;
     firstFullTag := if Nat.eqb index 0 then fullTag link else firstFullTag fl |}.

Fixpoint forEach (links : list TargetLink) (index : nat) (fl : Flags) : Flags :=
  match links with
  | [] => fl
  | link :: rest => forEach rest (S index) (visit fl index link)
  end.

(** The chain of [return] statements after the loop. *)
Definition classify (fl : Flags) : LinkFinding :=
  if hasSponsored fl then Finding true sponsored (Some (firstFullTag fl))
  else if hasUgc fl then Finding true ugc (Some (firstFullTag fl))
  else if hasNofollow fl && negb (hasDofollow fl)
       then Finding true nofollow (Some (firstFullTag fl))
  else if hasDofollow fl then Finding true dofollow (Some (firstFullTag fl))
  else Finding true dofollow (Some (firstFullTag fl)).

(** [evaluated] is the outcome of [page.evaluate]: the carriers the script
    visited, or [None] when the evaluation throws (the [catch] branch). *)
Definition findTargetLinks (evaluated : option (list Carrier)) (targetDomain : string)
  : LinkFinding :=
  match evaluated with
  | None => notFound
  | Some carriers =>
      let links := targetLinks carriers targetDomain in
      match links with
      | [] => notFound
      | _ => classify (forEach links 0 noFlags)
      end
  end.

(** [relHas token link]: the lower-cased [rel] of the link contains [token]. *)
Definition relHas (token : string) (link : TargetLink) : bool :=
  JS.includes (JS.toLowerCase (rel link)) token.

(** The precedence in the words of the spec, over all the matches:
    sponsored wins over ugc, which wins over nofollow when no match is free of
    nofollow; otherwise dofollow. *)
Definition unionPrecedence (links : list TargetLink) : LinkType :=
  if existsb (relHas "sponsored") links then sponsored
  else if existsb (relHas "ugc") links then ugc
  else if existsb (relHas "nofollow") links
          && negb (existsb (fun l => negb (relHas "nofollow" l)) links)
       then nofollow
  else dofollow.

(** [robots.includes('noindex') || robots.includes('none')] *)
Definition blocksIndexing (directive : string) : bool :=
  JS.includes directive "noindex" || JS.includes directive "none".

(** The X-Robots-Tag half of [checkIndexability]. *)
Definition headerIndexability (xRobotsTag : option string) : Indexability :=
  match present xRobotsTag with
  | Some x =>
      let xRobots := JS.toLowerCase x in
      if blocksIndexing xRobots
      then {| indexable := false; reason := Some ("X-Robots-Tag: " ++ x) |}
      else if JS.includes xRobots "nofollow"
      then {| indexable := true; reason := Some ("X-Robots-Tag: " ++ x) |}
      else {| indexable := true; reason := None |}
  | None => {| indexable := true; reason := None |}
  end.

(** [checkIndexability].  [robotsMeta] is the [content] of the page's
    [meta[name=robots]], [None] when the page has none (or [$eval] rejects,
    which the code turns into [null]); [xRobotsTag] is the header value the
    caller captured from the main response. *)
Definition checkIndexability (robotsMeta xRobotsTag : option string) : Indexability :=
  match present robotsMeta with
  | Some m =>
      let robots := JS.toLowerCase m in
      if blocksIndexing robots
      then {| indexable := false; reason := Some ("Meta robots: " ++ m) |}
      else if JS.includes robots "nofollow"
      then {| indexable := true; reason := Some ("Meta robots: " ++ m) |}
      else headerIndexability xRobotsTag
  | None => headerIndexability xRobotsTag
  end.

End LinkAnalyzer.

(** ** ScrapeDoService.extractLinksFromHtml (services/scrapeDoService.ts) *)
Module ScrapeDoService.
Import Regex.

Record FoundLink : Type := {
  href : string;
  fullTag : string
}.

(** The anchor pattern, flags g and i: the literal [<a], then [[^>]*], [href],
    [\s*], [=], [\s*], a quote, group 1 = [[^QUOTE]*], a quote, [[^>]*], [>],
    group 2 = a lazy run of [.], and the literal [</a>].  QUOTE stands for
    the two quote characters. *)
Definition linkRegex : list atom :=
  [lit "<"; lit "a"; Star notGt; lit "h"; lit "r"; lit "e"; lit "f";
   Star isSpace; lit "="; Star isSpace; Cls isQuote;
   Open; Star notQuote; Close; Cls isQuote; Star notGt; lit ">";
   Open; Lazy dot; Close; lit "<"; lit "/"; lit "a"; lit ">"].

(** The rel pattern, flag i: [rel], [\s*], [=], [\s*], a quote,
    group 1 = [[^QUOTE]*], a quote. *)
Definition relRegex : list atom :=
  [lit "r"; lit "e"; lit "l"; Star isSpace; lit "="; Star isSpace; Cls isQuote;
   Open; Star notQuote; Close; Cls isQuote].

(** [targetDomain.toLowerCase()], then the scheme prefix [http://] or
    [https://] removed, then the prefix [www.] removed. *)
Definition normalizeTarget (targetDomain : string) : string :=
  let lower := JS.toLowerCase targetDomain in
  let noScheme :=
    if String.prefix "https://" lower then JS.dropPrefix "https://" lower
    else JS.dropPrefix "http://" lower in
  JS.dropPrefix "www." noScheme.

(** The first [while] loop: anchors whose [href] contains the target. *)
Fixpoint anchorHits (ms : list result) (normalizedTarget : string) : list FoundLink :=
  match ms with
  | [] => []
  | m :: rest =>
      let h := nth 0 (captures m) EmptyString in
      if JS.truthy h && JS.includes (JS.toLowerCase h) normalizedTarget
      then {| href := h; fullTag := whole m |} :: anchorHits rest normalizedTarget
      else anchorHits rest normalizedTarget
  end.

(** The final classification of the chosen tag. *)
Definition classifyTag (tag : string) : LinkType :=
  let relValue :=
    match search relRegex tag with
    | Some m => JS.toLowerCase (nth 0 (captures m) EmptyString)
    | None => EmptyString
    end in
  if JS.includes relValue "nofollow" then nofollow
  else if JS.includes relValue "sponsored" then sponsored
  else if JS.includes relValue "ugc" then ugc
  else dofollow.

Section Extract.

(** The passes that run only when no anchor matched (URLs in text, meta tags,
    data attributes, script bodies and JSON-LD).  Their patterns are built at
    run time from the target string, so they are a parameter here: the links
    they find, or [None] when one of them throws. *)
Variable laterPasses : string -> string -> option (list FoundLink).

Definition extractLinksFromHtml (html targetDomain : string) : LinkFinding :=
  let normalizedTarget := normalizeTarget targetDomain in
  let anchors := anchorHits (execAll linkRegex 0 html) normalizedTarget in
  let foundLinks :=
    match anchors with
    | [] => laterPasses html normalizedTarget
    | _ => Some anchors
    end in
  match foundLinks with
  | None => notFound
  | Some [] => notFound
  | Some (firstLink :: _) =>
      Finding true (classifyTag (fullTag firstLink)) (Some (fullTag firstLink))
  end.

End Extract.

(** *** The rest of ScrapeDoService *)

(** A pattern for a literal word, letter by letter. *)
Definition lits (word : string) : list atom :=
  map lit (list_ascii_of_string word).

(** The canonical pattern, flag i: [<link], [[^>]*], [rel], [\s*], [=],
    [\s*], a quote, [canonical], a quote, [[^>]*], [href], [\s*], [=], [\s*],
    a quote, group 1 = [[^QUOTE]*], a quote. *)
Definition canonicalRegex : list atom :=
  lits "<link" ++ [Star notGt] ++ lits "rel"
  ++ [Star isSpace; lit "="; Star isSpace; Cls isQuote] ++ lits "canonical"
  ++ [Cls isQuote; Star notGt] ++ lits "href"
  ++ [Star isSpace; lit "="; Star isSpace; Cls isQuote;
      Open; Star notQuote; Close; Cls isQuote].

(** [extractCanonicalUrl]: [canonicalMatch?.[1] || null]. *)
Definition extractCanonicalUrl (html : string) : option string :=
  match search canonicalRegex html with
  | Some m => nonEmpty (nth 0 (captures m) EmptyString)
  | None => None
  end.

(** The meta robots pattern, flag i: [<meta], [[^>]*], [name], [\s*], [=],
    [\s*], a quote, [robots], a quote, [[^>]*], [content], [\s*], [=], [\s*],
    a quote, group 1 = [[^QUOTE]*], a quote. *)
Definition metaRobotsRegex : list atom :=
  lits "<meta" ++ [Star notGt] ++ lits "name"
  ++ [Star isSpace; lit "="; Star isSpace; Cls isQuote] ++ lits "robots"
  ++ [Cls isQuote; Star notGt] ++ lits "content"
  ++ [Star isSpace; lit "="; Star isSpace; Cls isQuote;
      Open; Star notQuote; Close; Cls isQuote].

(** The content the check reads: group 1 of the first match, when it is not
    empty. *)
Definition metaRobotsContent (html : string) : option string :=
  match search metaRobotsRegex html with
  | Some m => nonEmpty (nth 0 (captures m) EmptyString)
  | None => None
  end.

(** [checkIndexabilityFromHtml] *)
Definition checkIndexabilityFromHtml (html : string) : Indexability :=
  match metaRobotsContent html with
  | Some c =>
      let content := JS.toLowerCase c in
      if JS.includes content "noindex"
      then {| indexable := false; reason := Some "Meta robots: noindex" |}
      else if JS.includes content "nofollow"
      then {| indexable := true; reason := Some "Meta robots: nofollow" |}
      else {| indexable := true; reason := None |}
  | None => {| indexable := true; reason := None |}
  end.

(** [ScrapeDoResponse] *)
Record ScrapeDoResponse : Type := {
  success : bool;
  html : option string;
  statusCode : option Z;
  error : option string;
  responseTime : option Z
}.

(** [isAvailable], for the configured [API_KEY]. *)
Definition isAvailable (API_KEY : string) : bool :=
  JS.truthy API_KEY
  && negb (String.eqb API_KEY "your_scrape_do_api_key_here")
  && negb (String.eqb API_KEY EmptyString).

(** How the request of [scrapePage] ends: a response with its status and
    the body read from it, an abort by the timeout, another [Error] thrown by
    the request or by the reading of the body, with its message, or a thrown
    value that is no [Error]. *)
Inductive FetchOutcome : Type :=
| Responded (status : Z) (body : string)
| Aborted
| FetchError (message : string)
| ThrewOther.

(** [response.ok]: a status in the range 200-299. *)
Definition responseOk (status : Z) : bool :=
  (200 <=? status)%Z && (status <=? 299)%Z.

(** [scrapePage], given how the request ends and the time it took. *)
Definition scrapePage (API_KEY : string) (outcome : FetchOutcome) (elapsed : Z)
  : ScrapeDoResponse :=
  if negb (isAvailable API_KEY)
  then {| success := false; html := None; statusCode := None;
          error := Some "Scrape.do API key not configured";
          responseTime := None |}
  else
    match outcome with
    | Responded status body =>
        if responseOk status
        then {| success := true; html := Some body; statusCode := Some status;
                error := None; responseTime := Some elapsed |}
        else {| success := false; html := None; statusCode := Some status;
                error := Some ("API error: " ++ pretty status);
                responseTime := Some elapsed |}
    | Aborted =>
        {| success := false; html := None; statusCode := None;
           error := Some "Request timeout"; responseTime := Some elapsed |}
    | FetchError message =>
        {| success := false; html := None; statusCode := None;
           error := Some message; responseTime := Some elapsed |}
    | ThrewOther =>
        {| success := false; html := None; statusCode := None;
           error := Some "Unknown error"; responseTime := Some elapsed |}
    end.

(** What [scrapePageWithRetry] does, in order: a request with the strategy
    of the given index (0 default, 1 different_headers, 2 mobile_user_agent),
    or a pause. *)
Inductive Action : Type :=
| Request (strategy : nat)
| Pause (ms : Z).

(** [`${lastError}`] of a value that may be undefined. *)
Definition showError (lastError : option string) : string :=
  match lastError with
  | Some e => e
  | None => "undefined"
  end.

Section Retry.

(** The configured number of attempts and the response of the request made
    at each attempt (numbered from 1). *)
Variable RETRY_ATTEMPTS : nat.
Variable respond : nat -> ScrapeDoResponse.

(** The [for] loop from [attempt] on, with [remaining] iterations left. *)
Fixpoint retryFrom (remaining attempt : nat) (lastError : option string)
  : ScrapeDoResponse * list Action :=
  match remaining with
  | O =>
      ({| success := false; html := None; statusCode := None;
          error := Some ("Failed after " ++ pretty (Z.of_nat RETRY_ATTEMPTS)
                         ++ " attempts: " ++ showError lastError);
          responseTime := None |}, [])
  | S remaining' =>
      let strategy := Nat.min (attempt - 1) 2 in
      let result := respond attempt in
      if success result then (result, [Request strategy])
      else
        let pause :=
          if Nat.ltb attempt RETRY_ATTEMPTS
          then [Pause (Z.of_nat attempt * 3000)] else [] in
        let (final, later) := retryFrom remaining' (S attempt) (error result) in
        (final, (Request strategy :: pause ++ later)%list)
  end.

Definition scrapePageWithRetry : ScrapeDoResponse * list Action :=
  retryFrom RETRY_ATTEMPTS 1 None.

End Retry.

(** The requests of [n + 1] consecutive attempts starting with [attempt],
    with the pause after each attempt but the last. *)
Fixpoint attemptsTrace (n attempt : nat) : list Action :=
  match n with
  | O => [Request (Nat.min (attempt - 1) 2)]
  | S n' =>
      Request (Nat.min (attempt - 1) 2)
      :: Pause (Z.of_nat attempt * 3000)
      :: attemptsTrace n' (S attempt)
  end.

(** The response returned when no attempt succeeded. *)
Definition exhausted (attempts : nat) (lastError : option string) : ScrapeDoResponse :=
  {| success := false; html := None; statusCode := None;
     error := Some ("Failed after " ++ pretty (Z.of_nat attempts)
                    ++ " attempts: " ++ showError lastError);
     responseTime := None |}.

End ScrapeDoService.

(** ** Redis sorted sets, as the queue uses them

    A sorted set holds each member once, with a score.  [ZADD] of a member
    already present replaces its score; [ZPOPMAX] removes and returns the member
    with the highest score, the greatest member in Redis's byte order among
    equal scores.  The byte order on serialized members is the parameter
    [memberLt]. *)
Module Redis.
Section ZSet.
Context {M : Type} `{EqDecision M}.
Variable memberLt : M -> M -> bool.

Definition zset : Type := list (Z * M).

Definition without (member : M) (q : zset) : zset :=
  List.filter (fun e => negb (bool_decide (snd e = member))) q.

Definition zAdd (score : Z) (member : M) (q : zset) : zset :=
  (score, member) :: without member q.

Definition zCard (q : zset) : nat := length q.

(** [above e m]: entry [e] ranks above entry [m]. *)
Definition above (e m : Z * M) : bool :=
  (fst m <? fst e)%Z || ((fst m =? fst e)%Z && memberLt (snd m) (snd e)).

Fixpoint zMax (q : zset) : option (Z * M) :=
  match q with
  | [] => None
  | e :: q' =>
      match zMax q' with
      | None => Some e
      | Some m => if above e m then Some e else Some m
      end
  end.

Definition zPopMax (q : zset) : option ((Z * M) * zset) :=
  match zMax q with
  | None => None
  | Some e => Some (e, without (snd e) q)
  end.

(** [ZRANGE key 0 -1]: the members from the lowest rank to the highest. *)
Fixpoint insertRanked (e : Z * M) (l : list (Z * M)) : list (Z * M) :=
  match l with
  | [] => [e]
  | x :: l' => if above x e then e :: l else x :: insertRanked e l'
  end.

Definition zRange (q : zset) : list M :=
  map snd (fold_right insertRanked [] q).

End ZSet.
End Redis.

(** ** QueueService (services/queueService.ts) *)
Module QueueService.

Inductive JobType : Type := manual | google_sheets.

Definition typeName (t : JobType) : string :=
  match t with
  | manual => "manual"
  | google_sheets => "google_sheets"
  end.

Record QueueItem : Type := {
  id : string;
  type : JobType;
  userId : string;
  projectId : string;
  linkId : option string;
  sheetId : option string;
  url : string;
  targetDomain : string;
  priority : Z;
  createdAt : Z;
  attempts : Z;
  maxAttempts : Z
}.

#[global] Instance JobType_eq_dec : EqDecision JobType.
Proof. solve_decision. Defined.

#[global] Instance QueueItem_eq_dec : EqDecision QueueItem.
Proof. solve_decision. Defined.

Definition getUserPriority (plan : string) : Z :=
  if String.eqb plan "enterprise" then 1
  else if String.eqb plan "pro" then 2
  else if String.eqb plan "starter" then 3
  else 4.

(** [-priority * 1e13 - ts] *)
Definition calculateScore (priority createdAt : Z) : Z :=
  (- priority * 10 ^ 13 - createdAt)%Z.

(** The two Redis keys the service works on. *)
Record State : Type := {
  priorityQueue : Redis.zset (M := QueueItem);
  processing : list QueueItem
}.

(** The arguments of one [addToQueue] call together with what the call reads
    from its environment: the clock ([Date.now()], also the value of
    [new Date()]), the random suffix of the id, and the subscription plan of the
    user row, [None] when [UserModel.findById] finds no user. *)
Record EnqueueCall : Type := {
  now : Z;
  rnd : string;
  plan : option string;
  c_type : JobType;
  c_userId : string;
  c_projectId : string;
  c_url : string;
  c_targetDomain : string;
  c_linkId : option string;
  c_sheetId : option string
}.

Definition newItem (c : EnqueueCall) (prio : Z) : QueueItem :=
  {| id := typeName (c_type c) ++ "_" ++ pretty (now c) ++ "_" ++ rnd c;
     type := c_type c;
     userId := c_userId c;
     projectId := c_projectId c;
     linkId := c_linkId c;
     sheetId := c_sheetId c;
     url := c_url c;
     targetDomain := c_targetDomain c;
     priority := prio;
     createdAt := now c;
     attempts := 0;
     maxAttempts := 3 |}.

(** [addToQueue]: [None] when the call throws (user not found). *)
Definition addToQueue (c : EnqueueCall) (st : State) : option State :=
  match plan c with
  | None => None
  | Some subscription_plan =>
      let priority := getUserPriority subscription_plan in
      let queueItem := newItem c priority in
      let score := calculateScore priority (createdAt queueItem) in
      Some {| priorityQueue := Redis.zAdd score queueItem (priorityQueue st);
              processing := processing st |}
  end.

(** [clearProcessingQueue], run when the service starts: every item left on
    the processing list goes back into the sorted set under its own score, and
    the list is deleted. *)
Definition clearProcessingQueue (st : State) : State :=
  {| priorityQueue :=
       fold_left (fun q queueItem =>
                    Redis.zAdd (calculateScore (priority queueItem) (createdAt queueItem))
                               queueItem q)
                 (processing st) (priorityQueue st);
     processing := [] |}.



Section Worker.
Variable memberLt : QueueItem -> QueueItem -> bool.

(** A lease as [processNextItem] writes it: [zPopMax] takes the best entry,
    read as the code reads it ([result[0].value]), and [lPush] puts it on the
    processing list.  [None] when the queue is empty.  Between the two stands
    the guard on the client's reply, which [processNextItem] below models; a
    call that the guard ends right after the pop leaves the two keys as this
    lease followed by [finish] of the item does. *)
Definition leaseNext (st : State) : option (QueueItem * State) :=
  match Redis.zPopMax memberLt (priorityQueue st) with
  | None => None
  | Some (result, rest) =>
      let queueItem := snd result in
      Some (queueItem,
            {| priorityQueue := rest;
               processing := queueItem :: processing st |})
  end.

(** The tail of [processNextItem]: [lRem] of the item once it is analysed. *)
Fixpoint lRem1 (x : QueueItem) (l : list QueueItem) : list QueueItem :=
  match l with
  | [] => []
  | y :: l' => if bool_decide (y = x) then l' else y :: lRem1 x l'
  end.

Definition finish (queueItem : QueueItem) (st : State) : State :=
  {| priorityQueue := priorityQueue st;
     processing := lRem1 queueItem (processing st) |}.


(** What happens to the queue over time: producers enqueue, workers lease
    and finish, the service restarts.  Redis executes the commands one at a
    time. *)
Inductive Event : Type :=
| Enqueue (c : EnqueueCall)
| Lease
| Finish (queueItem : QueueItem)
| Restart.

Definition step (ev : Event) (st : State) : option QueueItem * State :=
  match ev with
  | Enqueue c =>
      match addToQueue c st with
      | Some st' => (None, st')
      | None => (None, st)
      end
  | Lease =>
      match leaseNext st with
      | Some (queueItem, st') => (Some queueItem, st')
      | None => (None, st)
      end
  | Finish queueItem => (None, finish queueItem st)
  | Restart => (None, clearProcessingQueue st)
  end.

(** The items leased over a sequence of events, in lease order. *)
Fixpoint leased (evs : list Event) (st : State) : list QueueItem :=
  match evs with
  | [] => []
  | ev :: evs' =>
      match step ev st with
      | (Some queueItem, st') => queueItem :: leased evs' st'
      | (None, st') => leased evs' st'
      end
  end.

(** The state after a sequence of events. *)
Fixpoint stateAfter (evs : list Event) (st : State) : State :=
  match evs with
  | [] => st
  | ev :: evs' => stateAfter evs' (snd (step ev st))
  end.

End Worker.

Definition empty : State := {| priorityQueue := []; processing := [] |}.

(** Every entry of the sorted set carries the score of its own item. *)
Definition scored (q : Redis.zset (M := QueueItem)) : Prop :=
  forall s m, In (s, m) q -> s = calculateScore (priority m) (createdAt m).

Definition waiting (x : QueueItem) (st : State) : Prop :=
  In x (map snd (priorityQueue st)).

(** [getPriorityName] *)
Definition getPriorityName (priority : Z) : string :=
  if (priority =? 1)%Z then "enterprise"
  else if (priority =? 2)%Z then "pro"
  else if (priority =? 3)%Z then "starter"
  else if (priority =? 4)%Z then "free"
  else "unknown".

End QueueService.

(** ** The BullMQ queue, as the service configures and uses it

    BullMQ is a dependency of the repository; its job store and its handling
    of a processor's outcome are described by the spec's queue operations
    (Enqueue, Complete, Fail) and modelled from them. *)
Module BullMQ.

Inductive JobState : Type :=
| Waiting
| Active
| Delayed (delayMs : Z)
| Completed
| Failed.

(** The job options the service sets: [priority], [jobId] and, through
    [defaultJobOptions], [attempts] and the exponential backoff [delay]. *)
Record JobOptions : Type := {
  o_priority : Z;
  o_jobId : string;
  o_attempts : Z;
  o_backoffDelay : Z
}.

(** How a processor call ends: its promise resolves with a value, or rejects. *)
Inductive Outcome (R : Type) : Type :=
| Resolved (returned : R)
| Rejected (reason : string).
Arguments Resolved {R} returned.
Arguments Rejected {R} reason.

Section Queue.
Context {D R : Type}.

Record Job : Type := {
  jid : string;
  data : D;
  opts : JobOptions;
  attemptsMade : Z;
  state : JobState;
  returnvalue : option R;
  failedReason : option string
}.

Definition newJob (d : D) (o : JobOptions) : Job :=
  {| jid := o_jobId o; data := d; opts := o; attemptsMade := 0;
     state := Waiting; returnvalue := None; failedReason := None |}.

(** The job store: the job records by id, and the enqueues of ids that were
    in flight, held back until the lease ends. *)
Record Store : Type := {
  jobs : gmap string Job;
  deferred : gmap string Job
}.

Definition emptyStore : Store := {| jobs := ∅; deferred := ∅ |}.

(** Whether the storage layer can be reached when a call is made. *)
Inductive Storage : Type := Reachable | Unreachable.

Definition queued (d : D) (o : JobOptions) (q : Store) : Store :=
  {| jobs := <[o_jobId o := newJob d o]> (jobs q); deferred := deferred q |}.

(** Modelled from the spec: [Queue.add] with a [jobId] is the spec's Enqueue.
    It fails ([None], BackendUnavailable) when the storage layer is
    unreachable.  It deduplicates on the job id across the waiting set: an id
    already waiting is not added again, the call is a no-op; a job that Fail
    has re-enqueued and that waits for its backoff counts as waiting.  An id
    in flight is held back and queued once the lease ends ([leaseEnds]); a
    second enqueue of it in the meantime is a duplicate of the first.  Any
    other id becomes a new waiting job. *)
Definition add (storage : Storage) (d : D) (o : JobOptions) (q : Store) : option Store :=
  match storage with
  | Unreachable => None
  | Reachable =>
      match jobs q !! o_jobId o with
      | Some j =>
          match state j with
          | Waiting | Delayed _ => Some q
          | Active =>
              match deferred q !! o_jobId o with
              | Some _ => Some q
              | None =>
                  Some {| jobs := jobs q;
                          deferred := <[o_jobId o := newJob d o]> (deferred q) |}
              end
          | Completed | Failed => Some (queued d o q)
          end
      | None => Some (queued d o q)
      end
  end.

Definition isWaiting (j : Job) : bool :=
  match state j with Waiting => true | _ => false end.

(** [getWaiting()]: the jobs of the waiting set. *)
Definition getWaiting (q : Store) : list Job :=
  List.filter isWaiting (map snd (map_to_list (jobs q))).

(** Modelled from the spec: the backoff of the spec's Fail,
    [base * 2^attempts], where [attempts] counts the failures before this one. *)
Definition backoffDelay (o : JobOptions) (attempts : Z) : Z :=
  (o_backoffDelay o * 2 ^ attempts)%Z.

(** Modelled from the spec: what the worker does with the outcome of the
    processor.  A resolved promise is the spec's Complete.  A rejected one is
    the spec's Fail: a retry after the backoff while
    [attempts + 1 < max_attempts], the failed (dead-letter) set otherwise. *)
Definition settle (j : Job) (o : Outcome R) : Job :=
  match o with
  | Resolved r =>
      {| jid := jid j; data := data j; opts := opts j;
         attemptsMade := attemptsMade j + 1;
         state := Completed; returnvalue := Some r;
         failedReason := failedReason j |}
  | Rejected reason =>
      if (attemptsMade j + 1 <? o_attempts (opts j))%Z
      then {| jid := jid j; data := data j; opts := opts j;
              attemptsMade := attemptsMade j + 1;
              state := Delayed (backoffDelay (opts j) (attemptsMade j));
              returnvalue := returnvalue j;
              failedReason := Some reason |}
      else {| jid := jid j; data := data j; opts := opts j;
              attemptsMade := attemptsMade j + 1;
              state := Failed; returnvalue := returnvalue j;
              failedReason := Some reason |}
  end.

(** Modelled from the spec: the lease of a job ends with the record [j] that
    [settle] gives.  An enqueue held back for the id is queued now, unless
    Fail has re-enqueued the job itself, of which it is then a duplicate. *)
Definition leaseEnds (j : Job) (q : Store) : Store :=
  match deferred q !! jid j, state j with
  | Some held, (Completed | Failed) =>
      {| jobs := <[jid j := held]> (jobs q); deferred := delete (jid j) (deferred q) |}
  | _, _ =>
      {| jobs := <[jid j := j]> (jobs q); deferred := delete (jid j) (deferred q) |}
  end.

End Queue.
Arguments Job : clear implicits.
Arguments Store : clear implicits.
End BullMQ.

(** ** BullMQService (services/bullmqService.ts) *)
Module BullMQService.
Import QueueService(JobType, manual, google_sheets, typeName).

Inductive Status : Type := OK | Problem.

(** [LinkAnalysisResult] (models/ManualLink.ts) *)
Record LinkAnalysisResult : Type := {
  status : Status;
  responseCode : Z;
  indexable : bool;
  r_linkType : LinkType;
  canonicalUrl : option string;
  loadTime : Z;
  r_fullATag : option string;
  nonIndexableReason : option string;
  r_error : option string
}.

Record LinkAnalysisJobData : Type := {
  id : string;
  type : JobType;
  userId : string;
  projectId : string;
  linkId : option string;
  sheetId : option string;
  url : string;
  targetDomain : string;
  priority : Z;
  attempts : option Z
}.

Record AnalysisJobResult : Type := {
  success : bool;
  result : option LinkAnalysisResult;
  error : option string;
  processedAt : Z
}.

Definition MAX_ATTEMPTS : Z := 3.
Definition BACKOFF_DELAY : Z := 2000.

(** The body returns 1 whatever the user. *)
Definition getUserPriority (_userId : string) : Z := 1.

(** [...(x && { x })] for an optional string argument. *)
Definition optionalField (x : option string) : option string :=
  match x with
  | Some s => nonEmpty s
  | None => None
  end.

Definition jobData (type : JobType) (userId projectId url targetDomain : string)
    (linkId sheetId : option string) : LinkAnalysisJobData :=
  {| id := typeName type ++ ":" ++ url;
     type := type;
     userId := userId;
     projectId := projectId;
     linkId := optionalField linkId;
     sheetId := optionalField sheetId;
     url := url;
     targetDomain := targetDomain;
     priority := getUserPriority userId;
     attempts := Some 0%Z |}.

(** [defaultJobOptions] of [initialize] merged with the options of the [add]
    call. *)
Definition jobOptions (d : LinkAnalysisJobData) : BullMQ.JobOptions :=
  {| BullMQ.o_priority := priority d;
     BullMQ.o_jobId := id d;
     BullMQ.o_attempts := MAX_ATTEMPTS;
     BullMQ.o_backoffDelay := BACKOFF_DELAY |}.

Abbreviation Job := (BullMQ.Job LinkAnalysisJobData AnalysisJobResult).
Abbreviation Store := (BullMQ.Store LinkAnalysisJobData AnalysisJobResult).

(** How the two calls into the queue go that [addLinkAnalysisJob] makes
    inside its [try]: both return; [Queue.add] throws; or [Queue.add] returns
    and [getWaiting], called for the log line, throws. *)
Inductive Calls : Type := BothReturn | AddThrows | GetWaitingThrows.

Definition storageAtAdd (calls : Calls) : BullMQ.Storage :=
  match calls with
  | AddThrows => BullMQ.Unreachable
  | _ => BullMQ.Reachable
  end.

(** How a call of [addLinkAnalysisJob] ends: it throws before it builds the
    job (the queue is not initialised); it returns; or its [catch] rethrows
    what one of the two calls threw.  [job] is the job data handed to
    [Queue.add], [q] the store at the end. *)
Inductive AddResult : Type :=
| NotInitialized
| Returned (job : LinkAnalysisJobData) (q : Store)
| Rethrown (job : LinkAnalysisJobData) (q : Store).

(** [addLinkAnalysisJob]; the queue is [None] before [initialize]. *)
Definition addLinkAnalysisJob (calls : Calls) (type : JobType)
    (userId projectId url targetDomain : string) (linkId sheetId : option string)
    (linkAnalysisQueue : option Store) : AddResult :=
  match linkAnalysisQueue with
  | None => NotInitialized
  | Some q =>
      let d := jobData type userId projectId url targetDomain linkId sheetId in
      match BullMQ.add (storageAtAdd calls) d (jobOptions d) q with
      | None => Rethrown d q
      | Some q' =>
          match calls with
          | GetWaitingThrows => Rethrown d q'
          | _ => Returned d q'
          end
      end
  end.

(** A thrown value: an [Error] with its message, or anything else. *)
Inductive Thrown : Type :=
| ErrorObject (message : string)
| OtherValue.

Definition errorMessage (e : Thrown) : string :=
  match e with
  | ErrorObject m => m
  | OtherValue => "Unknown error"
  end.

(** What the processor calls: the analyser, the repository update (which
    returns nothing, or throws), the completion check of the project (whether
    no job and no pending row is left), and the clock. *)
Record Env : Type := {
  analyzeLink : string -> string -> Thrown + LinkAnalysisResult;
  update : string -> LinkAnalysisResult -> option Thrown;
  projectDone : string -> JobType -> bool;
  clock : Z
}.

Inductive SocketEvent : Type :=
| link_updated (projectId linkId : string) (st : Status) (linkType : LinkType)
| analysis_completed (projectId : string) (type : JobType).

(** [sendRealTimeUpdate] followed by [checkProjectAnalysisCompletion]; both
    catch whatever is thrown inside them. *)
Definition sendRealTimeUpdate (env : Env) (type : JobType) (projectId : string)
    (linkId : option string) (result : option LinkAnalysisResult)
  : list SocketEvent :=
  (match type, linkId with
   | manual, Some l =>
       [link_updated projectId l
          (match result with Some r => status r | None => Problem end)
          (match result with Some r => r_linkType r | None => not_found end)]
   | _, _ => []
   end)
  ++ (if projectDone env projectId type
      then [analysis_completed projectId type] else []).

Definition failure (env : Env) (d : LinkAnalysisJobData) (e : Thrown)
  : BullMQ.Outcome AnalysisJobResult * list SocketEvent :=
  (BullMQ.Resolved {| success := false; result := None;
                      error := Some (errorMessage e);
                      processedAt := clock env |},
   sendRealTimeUpdate env (type d) (projectId d) (linkId d) None).

(** [processLinkAnalysisJob]: the outcome handed to BullMQ and the events
    emitted on the way. *)
Definition processLinkAnalysisJob (env : Env) (job : Job)
  : BullMQ.Outcome AnalysisJobResult * list SocketEvent :=
  let d := BullMQ.data job in
  match analyzeLink env (url d) (targetDomain d) with
  | inl e => failure env d e
  | inr result =>
      let saved :=
        match type d, linkId d with
        | manual, Some l => update env l result
        | _, _ => None
        end in
      match saved with
      | Some e => failure env d e
      | None =>
          (BullMQ.Resolved {| success := true; result := Some result;
                              error := None; processedAt := clock env |},
           sendRealTimeUpdate env (type d) (projectId d) (linkId d) (Some result))
      end
  end.

(** The processing of a job fails with [e]: the analyser throws [e], or the
    repository update of a manual link throws [e]. *)
Definition processingFails (env : Env) (d : LinkAnalysisJobData) (e : Thrown) : Prop :=
  analyzeLink env (url d) (targetDomain d) = inl e
  \/ exists r l,
      analyzeLink env (url d) (targetDomain d) = inr r
      /\ type d = manual /\ linkId d = Some l /\ update env l r = Some e.

(** One run of the worker on a job: the processor, then BullMQ's handling of
    its outcome. *)
Definition workerRun (env : Env) (job : Job) : Job :=
  BullMQ.settle job (fst (processLinkAnalysisJob env job)).

End BullMQService.

(** ** LinkAnalyzer.analyzeLink and the functions it calls
    (services/linkAnalyzer.ts) *)
Module Analyzer.
Import BullMQService(Status, OK, Problem, LinkAnalysisResult, Thrown, errorMessage).

(** [Partial<LinkAnalysisResult>]: every field may be missing. *)
Record PartialResult : Type := {
  p_status : option Status;
  p_indexable : option bool;
  p_linkType : option LinkType;
  p_canonicalUrl : option string;
  p_fullATag : option string;
  p_nonIndexableReason : option string;
  p_error : option string
}.

(** [Object.assign(target, source)]: the fields the source has replace the
    target's, the others stay. *)
Definition over {A : Type} (source target : option A) : option A :=
  match source with
  | Some v => Some v
  | None => target
  end.

Definition assign (target source : PartialResult) : PartialResult :=
  {| p_status := over (p_status source) (p_status target);
     p_indexable := over (p_indexable source) (p_indexable target);
     p_linkType := over (p_linkType source) (p_linkType target);
     p_canonicalUrl := over (p_canonicalUrl source) (p_canonicalUrl target);
     p_fullATag := over (p_fullATag source) (p_fullATag target);
     p_nonIndexableReason :=
       over (p_nonIndexableReason source) (p_nonIndexableReason target);
     p_error := over (p_error source) (p_error target) |}.

(** What the three page queries of [analyzePageContent] see: the robots
    meta content, the link carriers ([None] when [page.evaluate] throws) and
    the [href] of the canonical link. *)
Record PageView : Type := {
  robotsMeta : option string;
  evaluated : option (list LinkAnalyzer.Carrier);
  canonical : option string
}.

(** The [if]/[else if] chain that fixes status and reason. *)
Definition verdictOf (linkFound pageIndexable : bool) (indexReason : option string)
    (canonicalUrl : option string) (currentUrl : string) : Status * option string :=
  if negb linkFound then (Problem, None)
  else if negb pageIndexable then (Problem, indexReason)
  else match present canonicalUrl with
       | Some c =>
           if negb (String.eqb c currentUrl) then (OK, Some "Canonicalized")
           else (OK, None)
       | None => (OK, None)
       end.

(** [analyzePageContent].  The three helpers catch their own errors, so the
    outer [catch] is not reached. *)
Definition analyzePageContent (view : PageView) (targetDomain currentUrl : string)
    (xRobotsTag : option string) : PartialResult :=
  let indexabilityCheck := LinkAnalyzer.checkIndexability (robotsMeta view) xRobotsTag in
  let linkAnalysis := LinkAnalyzer.findTargetLinks (evaluated view) targetDomain in
  let canonicalUrl := canonical view in
  let '(status, nonIndexableReason) :=
    verdictOf (found linkAnalysis) (indexable indexabilityCheck)
              (reason indexabilityCheck) canonicalUrl currentUrl in
  {| p_status := Some status;
     p_indexable := Some (indexable indexabilityCheck);
     p_linkType := Some (linkType linkAnalysis);
     p_canonicalUrl := present canonicalUrl;
     p_fullATag := present (fullATag linkAnalysis);
     p_nonIndexableReason := present nonIndexableReason;
     p_error := None |}.

(** The rendering proxy as the analyser sees it: the configured key and
    number of attempts, how the request of each attempt ends and how long it
    takes, and the extractor's later passes. *)
Record Proxy : Type := {
  API_KEY : string;
  RETRY_ATTEMPTS : nat;
  outcome : nat -> ScrapeDoService.FetchOutcome;
  elapsed : nat -> Z;
  laterPasses : string -> string -> option (list ScrapeDoService.FoundLink)
}.

Definition onlyLinkType (t : LinkType) (err : option string) : PartialResult :=
  {| p_status := None; p_indexable := None; p_linkType := Some t;
     p_canonicalUrl := None; p_fullATag := None;
     p_nonIndexableReason := None; p_error := err |}.

(** The status and reason the proxy path derives. *)
Definition proxyVerdict (pageIndexable : bool) (indexReason canonicalUrl : option string)
    (currentUrl : string) : Status * option string :=
  if negb pageIndexable then (Problem, indexReason)
  else match present canonicalUrl with
       | Some c =>
           if negb (String.eqb c currentUrl) then (OK, Some "Canonicalized")
           else (OK, None)
       | None => (OK, None)
       end.

(** [analyzeWithScrapeDo] *)
Definition analyzeWithScrapeDo (proxy : Proxy) (url targetDomain currentUrl : string)
  : PartialResult :=
  if negb (ScrapeDoService.isAvailable (API_KEY proxy))
  then onlyLinkType not_found
         (Some "Scrape.do not configured - please set SCRAPE_DO_API_KEY in agent_env.txt")
  else
    let scrapeResult :=
      fst (ScrapeDoService.scrapePageWithRetry (RETRY_ATTEMPTS proxy)
             (fun attempt =>
                ScrapeDoService.scrapePage (API_KEY proxy) (outcome proxy attempt)
                                           (elapsed proxy attempt))) in
    match ScrapeDoService.success scrapeResult, present (ScrapeDoService.html scrapeResult) with
    | true, Some html =>
        let linkResult :=
          ScrapeDoService.extractLinksFromHtml (laterPasses proxy) html targetDomain in
        if negb (found linkResult) then onlyLinkType not_found None
        else
          let canonicalUrl := ScrapeDoService.extractCanonicalUrl html in
          let indexabilityResult := ScrapeDoService.checkIndexabilityFromHtml html in
          let '(status, nonIndexableReason) :=
            proxyVerdict (indexable indexabilityResult) (reason indexabilityResult)
                         canonicalUrl currentUrl in
          {| p_status := Some status;
             p_indexable := Some (indexable indexabilityResult);
             p_linkType := Some (linkType linkResult);
             p_canonicalUrl := present canonicalUrl;
             p_fullATag := present (fullATag linkResult);
             p_nonIndexableReason := present nonIndexableReason;
             p_error := None |}
    | _, _ =>
        onlyLinkType not_found
          (Some ("Scrape.do error: "
                 ++ ScrapeDoService.showError (ScrapeDoService.error scrapeResult)))
    end.

(** [x.linkType && x.linkType !== 'not_found'] *)
Definition linkFound (x : PartialResult) : bool :=
  match p_linkType x with
  | Some not_found | None => false
  | Some _ => true
  end.

(** The main response of [page.goto]: its status and X-Robots-Tag header. *)
Record Response : Type := {
  r_status : Z;
  r_xRobotsTag : option string
}.

(** How the browser part of [analyzeLink] goes.  Launching the browser and
    loading the page either throws, or yields the response ([None] when
    [page.goto] returns null), the final URL after the redirects and the
    X-Robots-Tag the response listener saw.  [firstView] is the page at the
    first analysis; [reload] is what the reload and the scroll throw, if
    anything; [secondView] is the page after them. *)
Inductive Navigation : Type :=
| NavThrows (e : Thrown)
| NavLoaded (response : option Response) (finalUrl : string)
            (seenXRobots : option string).

Record Browser : Type := {
  navigation : Navigation;
  firstView : PageView;
  reload : option Thrown;
  secondView : PageView
}.

(** The verdict returned when the proxy found the link after a 403 or an
    exception: [status || 'OK'], [indexable || true]. *)
Definition rescued (scrapeDoResult : PartialResult) (responseCode loadTime : Z)
  : LinkAnalysisResult :=
  {| BullMQService.status :=
       match p_status scrapeDoResult with Some s => s | None => OK end;
     BullMQService.responseCode := responseCode;
     BullMQService.indexable :=
       match p_indexable scrapeDoResult with Some true => true | _ => true end;
     BullMQService.r_linkType :=
       match p_linkType scrapeDoResult with Some t => t | None => not_found end;
     BullMQService.canonicalUrl := present (p_canonicalUrl scrapeDoResult);
     BullMQService.loadTime := loadTime;
     BullMQService.r_fullATag := present (p_fullATag scrapeDoResult);
     BullMQService.nonIndexableReason := present (p_nonIndexableReason scrapeDoResult);
     BullMQService.r_error := None |}.

Definition failed (responseCode loadTime : Z) (message : string) : LinkAnalysisResult :=
  {| BullMQService.status := Problem;
     BullMQService.responseCode := responseCode;
     BullMQService.indexable := false;
     BullMQService.r_linkType := not_found;
     BullMQService.canonicalUrl := None;
     BullMQService.loadTime := loadTime;
     BullMQService.r_fullATag := None;
     BullMQService.nonIndexableReason := None;
     BullMQService.r_error := Some message |}.

(** The [return] at the end of the [try] block. *)
Definition finished (analysisResult : PartialResult) (responseCode loadTime : Z)
  : LinkAnalysisResult :=
  {| BullMQService.status :=
       match p_status analysisResult with Some s => s | None => Problem end;
     BullMQService.responseCode := responseCode;
     BullMQService.indexable :=
       match p_indexable analysisResult with Some b => b | None => false end;
     BullMQService.r_linkType :=
       match p_linkType analysisResult with Some t => t | None => not_found end;
     BullMQService.canonicalUrl := present (p_canonicalUrl analysisResult);
     BullMQService.loadTime := loadTime;
     BullMQService.r_fullATag := present (p_fullATag analysisResult);
     BullMQService.nonIndexableReason := present (p_nonIndexableReason analysisResult);
     BullMQService.r_error := present (p_error analysisResult) |}.

(** The [catch] block of [analyzeLink]. *)
Definition afterException (proxy : Proxy) (url targetDomain : string) (loadTime : Z)
    (e : Thrown) : LinkAnalysisResult :=
  let scrapeDoResult := analyzeWithScrapeDo proxy url targetDomain url in
  if linkFound scrapeDoResult then rescued scrapeDoResult 200 loadTime
  else failed 0 loadTime (errorMessage e).

(** [analyzeLink]; [loadTime] is [Date.now() - startTime] at the return. *)
Definition analyzeLink (browser : Browser) (proxy : Proxy) (url targetDomain : string)
    (loadTime : Z) : LinkAnalysisResult :=
  match navigation browser with
  | NavThrows e => afterException proxy url targetDomain loadTime e
  | NavLoaded response finalUrl seenXRobots =>
      let responseCode := match response with Some r => r_status r | None => 0%Z end in
      let xRobotsTag :=
        match response with
        | Some r => over (present (r_xRobotsTag r)) seenXRobots
        | None => seenXRobots
        end in
      if match response with None => true | Some _ => (400 <=? responseCode)%Z end
      then
        if (responseCode =? 403)%Z
        then
          let scrapeDoResult := analyzeWithScrapeDo proxy url targetDomain url in
          if linkFound scrapeDoResult then rescued scrapeDoResult responseCode loadTime
          else failed responseCode loadTime
                 ("HTTP " ++ pretty responseCode ++ " error - site blocks all scrapers")
        else failed responseCode loadTime ("HTTP " ++ pretty responseCode ++ " error")
      else
        let analysisResult :=
          analyzePageContent (firstView browser) targetDomain finalUrl xRobotsTag in
        if linkFound analysisResult
        then finished analysisResult responseCode loadTime
        else
          match reload browser with
          | Some e => afterException proxy url targetDomain loadTime e
          | None =>
              let retryAnalysisResult :=
                analyzePageContent (secondView browser) targetDomain finalUrl xRobotsTag in
              if linkFound retryAnalysisResult
              then finished (assign analysisResult retryAnalysisResult)
                            responseCode loadTime
              else
                let scrapeDoResult :=
                  analyzeWithScrapeDo proxy url targetDomain finalUrl in
                if linkFound scrapeDoResult
                then finished (assign analysisResult scrapeDoResult)
                              responseCode loadTime
                else finished analysisResult responseCode loadTime
          end
  end.

(** A partial result that carries status, indexability and class, and whose
    status agrees with them. *)
Definition consistent (r : PartialResult) : Prop :=
  exists s b t,
    p_status r = Some s /\ p_indexable r = Some b /\ p_linkType r = Some t
    /\ (s = OK -> t <> not_found /\ b = true)
    /\ (t = not_found -> s = Problem /\ p_fullATag r = None).

End Analyzer.

(** ** QueueService, the worker side: results, events and statistics
    (services/queueService.ts) *)
Module QueueWorker.
Import QueueService.
Import BullMQService(Status, OK, Problem, LinkAnalysisResult, Thrown, errorMessage).

(** The [result] field of an [AnalysisResult]: the analyser's verdict, or
    the fixed note of a Google Sheets item. *)
Inductive Payload : Type :=
| Verdict (r : LinkAnalysisResult)
| SheetsHandled.

Record AnalysisResult : Type := {
  a_id : string;
  a_type : JobType;
  a_userId : string;
  a_projectId : string;
  a_linkId : option string;
  a_sheetId : option string;
  a_result : option Payload;
  a_success : bool;
  a_error : option string;
  processedAt : Z
}.

(** [analyzeLink]: [analyze] is [LinkAnalyzer.analyzeLink], which returns a
    verdict or throws; [clock] is the time of [new Date()]. *)
Definition analyzeLink (analyze : string -> string -> Thrown + LinkAnalysisResult)
    (clock : Z) (queueItem : QueueItem) : AnalysisResult :=
  let outcome :=
    match type queueItem with
    | manual =>
        match analyze (url queueItem) (targetDomain queueItem) with
        | inr r => inr (Verdict r)
        | inl e => inl e
        end
    | google_sheets => inr SheetsHandled
    end in
  match outcome with
  | inr result =>
      {| a_id := id queueItem; a_type := type queueItem;
         a_userId := userId queueItem; a_projectId := projectId queueItem;
         a_linkId := linkId queueItem; a_sheetId := sheetId queueItem;
         a_result := Some result; a_success := true; a_error := None;
         processedAt := clock |}
  | inl e =>
      {| a_id := id queueItem; a_type := type queueItem;
         a_userId := userId queueItem; a_projectId := projectId queueItem;
         a_linkId := linkId queueItem; a_sheetId := sheetId queueItem;
         a_result := None; a_success := false;
         a_error := Some (errorMessage e); processedAt := clock |}
  end.

(** [result.result?.field] for a field of the verdict. *)
Definition verdictField {A : Type} (f : LinkAnalysisResult -> A) (p : option Payload)
  : option A :=
  match p with
  | Some (Verdict r) => Some (f r)
  | _ => None
  end.

Definition verdictOption (f : LinkAnalysisResult -> option string) (p : option Payload)
  : option string :=
  match p with
  | Some (Verdict r) => f r
  | _ => None
  end.

(** The argument of [ManualLinkModel.update]. *)
Record RowUpdate : Type := {
  u_linkId : string;
  u_status : Status;
  u_response_code : option Z;
  u_indexable : option bool;
  u_link_type : option LinkType;
  u_canonical_url : option string;
  u_load_time : option Z;
  u_full_a_tag : option string;
  u_non_indexable_reason : option string;
  u_checked_at : Z
}.

Definition rowUpdate (l : string) (result : AnalysisResult) : RowUpdate :=
  {| u_linkId := l;
     u_status := if a_success result then OK else Problem;
     u_response_code := verdictField BullMQService.responseCode (a_result result);
     u_indexable := verdictField BullMQService.indexable (a_result result);
     u_link_type := verdictField BullMQService.r_linkType (a_result result);
     u_canonical_url := verdictOption BullMQService.canonicalUrl (a_result result);
     u_load_time := verdictField BullMQService.loadTime (a_result result);
     u_full_a_tag := verdictOption BullMQService.r_fullATag (a_result result);
     u_non_indexable_reason :=
       verdictOption BullMQService.nonIndexableReason (a_result result);
     u_checked_at := processedAt result |}.

(** [lTrim key 0 999] *)
Definition lTrim (l : list AnalysisResult) : list AnalysisResult := firstn 1000 l.

(** [saveResult]: the row update it sends, if any, and the result history
    afterwards.  [updateThrows] tells whether [ManualLinkModel.update]
    throws; the [catch] then skips the history. *)
Definition saveResult (updateThrows : bool) (result : AnalysisResult)
    (history : list AnalysisResult) : option RowUpdate * list AnalysisResult :=
  let sent :=
    match a_type result, present (a_linkId result) with
    | manual, Some l => Some (rowUpdate l result)
    | _, _ => None
    end in
  match sent with
  | Some u =>
      if updateThrows then (Some u, history)
      else (Some u, lTrim (result :: history))
  | None => (None, lTrim (result :: history))
  end.

(** [ManualLink.status] *)
Inductive RowStatus : Type := pending | checking | rowOK | rowProblem.

Definition unprocessed (s : RowStatus) : bool :=
  match s with
  | pending | checking => true
  | _ => false
  end.

(** The events the service emits to a project, with the fields of their
    payloads that the properties below speak about. *)
Inductive Emitted : Type :=
| link_updated (projectId : string) (linkId : option string) (status : option Status)
               (link_type : option LinkType)
| sheets_link_updated (projectId : string) (sheetId : option string) (status : Status)
| analysis_completed (projectId : string) (total : nat)
| sheets_analysis_completed (projectId : string) (total : nat).

(** [queueItem.projectId === projectId && queueItem.type === type] *)
Definition ofProject (p : string) (t : JobType) (queueItem : QueueItem) : bool :=
  String.eqb (projectId queueItem) p && bool_decide (type queueItem = t).

Section Events.
Variable memberLt : QueueItem -> QueueItem -> bool.

(** [rows] is what [ManualLinkModel.findByProjectIdAndType] returns: the
    statuses of the project's links of the type. *)
Variable rows : string -> JobType -> list RowStatus.

(** [checkProjectAnalysisCompletion] *)
Definition checkProjectAnalysisCompletion (p : string) (t : JobType) (st : State)
  : list Emitted :=
  let projectQueueItems :=
    List.filter (ofProject p t) (Redis.zRange memberLt (priorityQueue st)) in
  let projectProcessingItems := List.filter (ofProject p t) (processing st) in
  if Nat.eqb (length projectQueueItems) 0 && Nat.eqb (length projectProcessingItems) 0
  then
    let pendingLinks := rows p t in
    let unprocessedLinks := List.filter unprocessed pendingLinks in
    if Nat.eqb (length unprocessedLinks) 0
    then match t with
         | manual => [analysis_completed p (length pendingLinks)]
         | google_sheets => [sheets_analysis_completed p (length pendingLinks)]
         end
    else []
  else [].

(** [sendRealTimeUpdate] *)
Definition sendRealTimeUpdate (result : AnalysisResult) (st : State) : list Emitted :=
  match a_type result with
  | manual =>
      (link_updated (a_projectId result) (a_linkId result)
         (if a_success result then verdictField BullMQService.status (a_result result)
          else Some Problem)
         (verdictField BullMQService.r_linkType (a_result result))
       :: checkProjectAnalysisCompletion (a_projectId result) manual st)%list
  | google_sheets =>
      (sheets_link_updated (a_projectId result) (a_sheetId result)
         (if a_success result then OK else Problem)
       :: checkProjectAnalysisCompletion (a_projectId result) google_sheets st)%list
  end.

(** [getProjectQueueInfo]: the two counts and the listed items. *)
Definition getProjectQueueInfo (p : string) (st : State)
  : nat * nat * list QueueItem :=
  let projectQueueItems :=
    List.filter (fun queueItem => String.eqb (projectId queueItem) p)
                (Redis.zRange memberLt (priorityQueue st)) in
  let projectProcessingItems :=
    List.filter (fun queueItem => String.eqb (projectId queueItem) p) (processing st) in
  (length projectQueueItems, length projectProcessingItems,
   (projectQueueItems ++ projectProcessingItems)%list).




End Events.

(** The sum of the counts of a distribution. *)
Definition total (dist : gmap string nat) : nat :=
  map_fold (fun _ n acc => (n + acc)%nat) 0%nat dist.

End QueueWorker.

(** ** ManualLinksController.startLinkAnalysis
    (controllers/manualLinksController.ts) *)
Module ManualLinksController.
Import BullMQService(Store, Calls, LinkAnalysisJobData).

(** The fields of a link row that the loop reads. *)
Record Link : Type := {
  l_id : string;
  l_url : string;
  l_target_domain : string
}.

Inductive Emitted : Type :=
| analysis_started (projectId : string) (total : nat)
| analysis_error (projectId : string).

(** How the [for] loop ends: by running to its end or by a throw; with the
    queue it leaves and the jobs it has handed to [Queue.add], in order. *)
Record Run : Type := {
  threw : bool;
  linkAnalysisQueue : option Store;
  handed : list LinkAnalysisJobData
}.

(** The loop over [links] that calls [BullMQService.addLinkAnalysisJob];
    [calls index] tells how the queue calls of the iteration of that index
    go. *)
Fixpoint enqueueLinks (calls : nat -> Calls) (index : nat) (projectId userId : string)
    (links : list Link) (queue : option Store) : Run :=
  match links with
  | [] => {| threw := false; linkAnalysisQueue := queue; handed := [] |}
  | link :: rest =>
      match BullMQService.addLinkAnalysisJob (calls index) QueueService.manual
              userId projectId (l_url link) (l_target_domain link)
              (Some (l_id link)) None queue with
      | BullMQService.NotInitialized =>
          {| threw := true; linkAnalysisQueue := queue; handed := [] |}
      | BullMQService.Rethrown job q =>
          {| threw := true; linkAnalysisQueue := Some q; handed := [job] |}
      | BullMQService.Returned job q =>
          let run := enqueueLinks calls (S index) projectId userId rest (Some q) in
          {| threw := threw run;
             linkAnalysisQueue := linkAnalysisQueue run;
             handed := job :: handed run |}
      end
  end.

(** What [startLinkAnalysis] does: the events it emits, the jobs it hands to
    [Queue.add] and the queue afterwards. *)
Record Analysis : Type := {
  emitted : list Emitted;
  enqueued : list LinkAnalysisJobData;
  queueAfter : option Store
}.

(** [startLinkAnalysis]; [resetThrows] tells whether
    [ManualLinkModel.resetAnalysisStatus] throws. *)
Definition startLinkAnalysis (resetThrows : bool) (calls : nat -> Calls)
    (projectId : string) (links : list Link) (userId : string)
    (queue : option Store) : Analysis :=
  if resetThrows
  then {| emitted := [analysis_error projectId]; enqueued := []; queueAfter := queue |}
  else
    let run := enqueueLinks calls 0 projectId userId links queue in
    {| emitted :=
         analysis_started projectId (length links)
         :: (if threw run then [analysis_error projectId] else []);
       enqueued := handed run;
       queueAfter := linkAnalysisQueue run |}.

End ManualLinksController.

(** ** FileProcessor (services/fileProcessor.ts) *)
Module FileProcessor.

Record ImportedLink : Type := {
  url : string;
  target_domain : string
}.

(** The body of the loop of [processCSVManually] for one kept line. *)
Definition parseLine (rawLine : string) : option ImportedLink :=
  let line := JS.trim rawLine in
  if negb (JS.truthy line) then None
  else
    let parts := map JS.trim (JS.split "," line) in
    match parts with
    | url :: targetDomain :: _ =>
        if JS.truthy url && JS.truthy targetDomain
           && negb (String.eqb url EmptyString)
           && negb (String.eqb targetDomain EmptyString)
        then Some {| url := url; target_domain := targetDomain |}
        else None
    | _ => None
    end.

Fixpoint collect (lines : list string) : list ImportedLink :=
  match lines with
  | [] => []
  | line :: rest =>
      match parseLine line with
      | Some link => link :: collect rest
      | None => collect rest
      end
  end.

(** The lines the loop runs over: the non-blank lines of the file. *)
Definition keptLines (fileContent : string) : list string :=
  List.filter (fun line => negb (String.eqb (JS.trim line) EmptyString))
              (JS.split (ascii_of_nat 10) fileContent).

(** [processCSVManually], given the content of the file. *)
Definition processCSVManually (fileContent : string) : list ImportedLink :=
  collect (keptLines fileContent).

Section Validate.

(** Whether [new URL(s)] succeeds. *)
Variable validUrl : string -> bool.

(** [validateImportedLinks]: the valid links and the messages for the
    others. *)
Fixpoint validateImportedLinks (links : list ImportedLink)
  : list ImportedLink * list string :=
  match links with
  | [] => ([], [])
  | link :: rest =>
      let (valid, invalid) := validateImportedLinks rest in
      if validUrl (url link)
      then
        if JS.truthy (JS.trim (url link)) && JS.truthy (JS.trim (target_domain link))
        then (link :: valid, invalid)
        else (valid, (url link ++ " - Empty URL or target domain") :: invalid)
      else (valid, (url link ++ " - Invalid URL format") :: invalid)
  end.

End Validate.

End FileProcessor.

(** ** Example inputs *)
Module Scenario.
Import QueueService.

(** Spec scenario 6: a free, a pro and an enterprise user enqueue in that
    order, one millisecond apart. *)
Definition call (t : Z) (r pl : string) : EnqueueCall :=
  {| now := t; rnd := r; plan := Some pl; c_type := manual;
     c_userId := "u-" ++ pl; c_projectId := "p1";
     c_url := "https://blog.example/post"; c_targetDomain := "target.com";
     c_linkId := Some "l1"; c_sheetId := None |}.

Definition freeCall : EnqueueCall := call 1700000000000 "k3j9x2m1q" "free".
Definition proCall : EnqueueCall := call 1700000000001 "a8s7d6f5g" "pro".
Definition enterpriseCall : EnqueueCall := call 1700000000002 "z1x2c3v4b" "enterprise".

Definition freeItem : QueueItem := newItem freeCall (getUserPriority "free").
Definition proItem : QueueItem := newItem proCall (getUserPriority "pro").
Definition enterpriseItem : QueueItem :=
  newItem enterpriseCall (getUserPriority "enterprise").

Definition enqueueAll (calls : list EnqueueCall) (st : State) : State :=
  fold_left (fun s c => match addToQueue c s with Some s' => s' | None => s end)
            calls st.

Definition threeWaiting : State :=
  enqueueAll [freeCall; proCall; enterpriseCall] empty.

(** Redis's order among equal scores does not matter below. *)
Definition anyOrder (_ _ : QueueItem) : bool := false.

(** A page whose only link to target.com is one anchor with two rel tokens,
    as the rendering proxy returns it and as the browser sees it. *)
Definition anchorHtml (relValue : string) : string :=
  "<a href='https://target.com/x' rel='" ++ relValue ++ "'>x</a>".

Definition anchorCarrier (relValue : string) : LinkAnalyzer.Carrier :=
  {| LinkAnalyzer.ctype := LinkAnalyzer.anchor;
     LinkAnalyzer.hostname := Some "target.com";
     LinkAnalyzer.resolved := "https://target.com/x";
     LinkAnalyzer.relAttr := Some relValue;
     LinkAnalyzer.source := anchorHtml relValue |}.

(** Two projects audit the same page. *)
Definition pageUrl : string := "https://blog.example/post".

Definition jobOfProjectA : BullMQService.LinkAnalysisJobData :=
  BullMQService.jobData manual "user-1" "project-a" pageUrl "target.com"
    (Some "link-1") None.

Definition jobOfProjectB : BullMQService.LinkAnalysisJobData :=
  BullMQService.jobData manual "user-2" "project-b" pageUrl "other.org"
    (Some "link-2") None.

(** Three rows of one project, the first and the last for the same page, and
    a storage that is lost at the second enqueue. *)
Definition threeRows : list ManualLinksController.Link :=
  [ {| ManualLinksController.l_id := "link-1";
       ManualLinksController.l_url := pageUrl;
       ManualLinksController.l_target_domain := "target.com" |};
    {| ManualLinksController.l_id := "link-2";
       ManualLinksController.l_url := "https://news.example/item";
       ManualLinksController.l_target_domain := "target.com" |};
    {| ManualLinksController.l_id := "link-3";
       ManualLinksController.l_url := pageUrl;
       ManualLinksController.l_target_domain := "other.org" |} ].

Definition lostAtSecond (index : nat) : BullMQService.Calls :=
  if Nat.eqb index 1 then BullMQService.AddThrows else BullMQService.BothReturn.

(** The same enqueue twice through [QueueService.addToQueue], one
    millisecond apart. *)
Definition sameTwice : State :=
  enqueueAll [call 1700000000000 "k3j9x2m1q" "free";
              call 1700000000001 "a8s7d6f5g" "free"] empty.

(** A verdict the analyser returns, and an environment in which the
    repository update throws (the database connection is lost). *)
Definition verdict : BullMQService.LinkAnalysisResult :=
  {| BullMQService.status := BullMQService.OK;
     BullMQService.responseCode := 200;
     BullMQService.indexable := true;
     BullMQService.r_linkType := dofollow;
     BullMQService.canonicalUrl := None;
     BullMQService.loadTime := 4200;
     BullMQService.r_fullATag := Some "<a href='https://target.com/x'>x</a>";
     BullMQService.nonIndexableReason := None;
     BullMQService.r_error := None |}.

Definition databaseDown : BullMQService.Env :=
  {| BullMQService.analyzeLink := fun _ _ => inr verdict;
     BullMQService.update := fun _ _ =>
       Some (BullMQService.ErrorObject "Connection terminated unexpectedly");
     BullMQService.projectDone := fun _ _ => false;
     BullMQService.clock := 1700000005000 |}.

Definition firstAttempt : BullMQService.Job :=
  BullMQ.newJob jobOfProjectA (BullMQService.jobOptions jobOfProjectA).

(** A proxy that answers 403 to the first request and 200 to the second,
    and one that always answers 403. *)
Definition proxiedHtml : string :=
  "<html><head><meta name='robots' content='noindex'></head><body>"
  ++ anchorHtml "nofollow" ++ "</body></html>".

Definition blockedThenOk (attempt : nat) : ScrapeDoService.ScrapeDoResponse :=
  ScrapeDoService.scrapePage "token-1"
    (if Nat.eqb attempt 1 then ScrapeDoService.Responded 403 "Forbidden"
     else ScrapeDoService.Responded 200 proxiedHtml)
    1500.

Definition alwaysBlocked (attempt : nat) : ScrapeDoService.ScrapeDoResponse :=
  ScrapeDoService.scrapePage "token-1" (ScrapeDoService.Responded 403 "Forbidden") 1500.

Definition recoveringProxy : Analyzer.Proxy :=
  {| Analyzer.API_KEY := "token-1";
     Analyzer.RETRY_ATTEMPTS := 2;
     Analyzer.outcome := fun attempt =>
       if Nat.eqb attempt 1 then ScrapeDoService.Responded 403 "Forbidden"
       else ScrapeDoService.Responded 200 proxiedHtml;
     Analyzer.elapsed := fun _ => 1500%Z;
     Analyzer.laterPasses := fun _ _ => Some [] |}.

(** A page that loads with status 200 and shows one plain anchor to the
    target, and a browser that throws while loading. *)
Definition plainView : Analyzer.PageView :=
  {| Analyzer.robotsMeta := None;
     Analyzer.evaluated := Some [anchorCarrier "noopener"];
     Analyzer.canonical := None |}.

Definition emptyView : Analyzer.PageView :=
  {| Analyzer.robotsMeta := None;
     Analyzer.evaluated := Some [];
     Analyzer.canonical := None |}.

Definition loaded (code : Z) : Analyzer.Navigation :=
  Analyzer.NavLoaded
    (Some {| Analyzer.r_status := code; Analyzer.r_xRobotsTag := None |})
    pageUrl None.

Definition goodBrowser : Analyzer.Browser :=
  {| Analyzer.navigation := loaded 200;
     Analyzer.firstView := plainView;
     Analyzer.reload := None;
     Analyzer.secondView := plainView |}.

Definition crashingBrowser : Analyzer.Browser :=
  {| Analyzer.navigation :=
       Analyzer.NavThrows (BullMQService.ErrorObject "Navigation timeout of 60000 ms exceeded");
     Analyzer.firstView := emptyView;
     Analyzer.reload := None;
     Analyzer.secondView := emptyView |}.

(** A verdict for a page on which the link is missing, an analyser that
    returns it, and the result of its item. *)
Definition missingVerdict : BullMQService.LinkAnalysisResult :=
  {| BullMQService.status := BullMQService.Problem;
     BullMQService.responseCode := 200;
     BullMQService.indexable := true;
     BullMQService.r_linkType := not_found;
     BullMQService.canonicalUrl := None;
     BullMQService.loadTime := 9100;
     BullMQService.r_fullATag := None;
     BullMQService.nonIndexableReason := None;
     BullMQService.r_error := None |}.

Definition findsNothing (_ _ : string) : BullMQService.Thrown + BullMQService.LinkAnalysisResult :=
  inr missingVerdict.

Definition noRows (_ : string) (_ : JobType) : list QueueWorker.RowStatus := [].

(** A page whose only mention of the target is a URL in a script. *)
Definition scriptCarrier : LinkAnalyzer.Carrier :=
  {| LinkAnalyzer.ctype := LinkAnalyzer.javascript;
     LinkAnalyzer.hostname := Some "cdn.target.com";
     LinkAnalyzer.resolved := "https://cdn.target.com/widget.js";
     LinkAnalyzer.relAttr := Some "nofollow";
     LinkAnalyzer.source := "https://cdn.target.com/widget.js" |}.

(** A row of a Google Sheets project in the queue, and an analyser that
    would throw if it were called. *)
Definition sheetsItem : QueueItem :=
  {| id := "google_sheets_1700000000003_q7w8e9r0t";
     type := google_sheets;
     userId := "u-pro"; projectId := "p2";
     linkId := None; sheetId := Some "sheet-1";
     url := "https://blog.example/post"; targetDomain := "target.com";
     priority := 2; createdAt := 1700000000003;
     attempts := 0; maxAttempts := 3 |}.

Definition crashes (_ _ : string) : BullMQService.Thrown + BullMQService.LinkAnalysisResult :=
  inl (BullMQService.ErrorObject "Failed to launch the browser process").

End Scenario.

(** * Properties *)

(** ** Sorted-set facts *)
Section ZSetMembers.
Context {M : Type} `{EqDecision M}.

Lemma in_without (x : Z * M) (m : M) (q : Redis.zset) :
  In x (Redis.without m q) <-> In x q /\ snd x <> m.
Proof.
  unfold Redis.without. rewrite filter_In.
  split; intros [Hin Hm]; split; auto.
  - intros Heq. rewrite bool_decide_eq_true_2 in Hm by exact Heq. discriminate.
  - rewrite bool_decide_eq_false_2 by exact Hm. reflexivity.
Qed.

Lemma without_length (m : M) (q : Redis.zset) :
  (length (Redis.without m q) <= length q)%nat.
Proof.
  induction q as [|e q IH]; simpl; [lia|].
  destruct (negb (bool_decide (snd e = m))); simpl; lia.
Qed.

Lemma without_shrinks (e : Z * M) (q : Redis.zset) :
  In e q -> (length (Redis.without (snd e) q) < length q)%nat.
Proof.
  induction q as [|x q IH]; simpl; [tauto|].
  intros [-> | Hin].
  - rewrite bool_decide_eq_true_2 by reflexivity. simpl.
    pose proof (without_length (snd e) q). unfold Redis.without in *. lia.
  - specialize (IH Hin).
    destruct (negb (bool_decide (snd x = snd e))); simpl;
      unfold Redis.without in *; lia.
Qed.

End ZSetMembers.

Section ZSetMax.
Context {M : Type} `{EqDecision M}.
Variable memberLt : M -> M -> bool.

Lemma zMax_in (q : Redis.zset) (e : Z * M) :
  Redis.zMax memberLt q = Some e -> In e q.
Proof.
  revert e. induction q as [|x q IH]; simpl; intros e He; [discriminate|].
  destruct (Redis.zMax memberLt q) as [m|].
  - destruct (Redis.above memberLt x m); inversion He; subst; auto.
  - inversion He; auto.
Qed.

Lemma zMax_none (q : Redis.zset) :
  Redis.zMax memberLt q = None -> q = [].
Proof.
  destruct q as [|x q]; simpl; [reflexivity|].
  destruct (Redis.zMax memberLt q) as [m|]; [|discriminate].
  destruct (Redis.above memberLt x m); discriminate.
Qed.

(** No entry of the set has a higher score than the one [zMax] picks. *)
Lemma zMax_highest (q : Redis.zset) (e x : Z * M) :
  Redis.zMax memberLt q = Some e -> In x q -> (fst x <= fst e)%Z.
Proof.
  revert e. induction q as [|y q IH]; simpl; intros e He Hin; [tauto|].
  destruct (Redis.zMax memberLt q) as [m|] eqn:Hm.
  - specialize (IH m eq_refl).
    destruct (Redis.above memberLt y m) eqn:Hab; inversion He; subst; clear He.
    + unfold Redis.above in Hab.
      assert (fst m <= fst e)%Z.
      { apply orb_true_iff in Hab as [Hlt | Heq].
        - apply Z.ltb_lt in Hlt. lia.
        - apply andb_true_iff in Heq as [Heq _]. apply Z.eqb_eq in Heq. lia. }
      destruct Hin as [-> | Hin]; [lia|]. specialize (IH Hin). lia.
    + unfold Redis.above in Hab.
      apply orb_false_iff in Hab as [Hlt _]. apply Z.ltb_ge in Hlt.
      destruct Hin as [<- | Hin]; [lia | auto].
  - apply zMax_none in Hm. subst q. inversion He; subst.
    destruct Hin as [-> | []]. lia.
Qed.

Lemma zPopMax_some (q : Redis.zset) (e : Z * M) (q' : Redis.zset) :
  Redis.zPopMax memberLt q = Some (e, q') ->
  In e q /\ q' = Redis.without (snd e) q /\ forall x, In x q -> (fst x <= fst e)%Z.
Proof.
  unfold Redis.zPopMax. destruct (Redis.zMax memberLt q) as [m|] eqn:Hm; [|discriminate].
  intros Heq. inversion Heq; subst. split; [|split]; auto.
  - apply zMax_in; exact Hm.
  - intros x Hx. eapply zMax_highest; eauto.
Qed.

Lemma zPopMax_none (q : Redis.zset) :
  Redis.zPopMax memberLt q = None -> q = [].
Proof.
  unfold Redis.zPopMax. destruct (Redis.zMax memberLt q) eqn:Hm; [discriminate|].
  intros _. apply zMax_none; exact Hm.
Qed.

End ZSetMax.

(** ** The Redis queue: scores and lease order *)
Section Scores.
Import QueueService.

(** For the priorities 1 to 4 and any time a JavaScript [Date] can hold, the
    score is an integer below 2^53 in magnitude: the double arithmetic of
    [calculateScore] is exact there. *)
Lemma calculateScore_safe_integer (p t : Z) :
  (1 <= p <= 4)%Z -> (- 8640000000000000 <= t <= 8640000000000000)%Z ->
  (- 2 ^ 53 < calculateScore p t < 2 ^ 53)%Z.
Proof. unfold calculateScore. intros Hp Ht. lia. Qed.

Lemma getUserPriority_range (plan : string) :
  (1 <= getUserPriority plan <= 4)%Z.
Proof.
  unfold getUserPriority.
  repeat match goal with |- context [String.eqb ?x ?y] => destruct (String.eqb x y) end; lia.
Qed.

(** A lower priority number gives a higher score as long as the two enqueue
    times are less than 10^13 ms apart. *)
Lemma score_priority (pa ta pb tb : Z) :
  (pa < pb)%Z -> (ta < tb + 10 ^ 13)%Z ->
  (calculateScore pb tb < calculateScore pa ta)%Z.
Proof. unfold calculateScore. intros Hp Ht. lia. Qed.

(** With equal priorities the earlier enqueue time gives the higher score. *)
Lemma score_fifo (p ta tb : Z) :
  (ta < tb)%Z -> (calculateScore p tb < calculateScore p ta)%Z.
Proof. unfold calculateScore. intros Ht. lia. Qed.

Lemma scored_without (m : QueueItem) (q : Redis.zset) :
  scored q -> scored (Redis.without m q).
Proof.
  intros Hs s x Hin. apply in_without in Hin as [Hin _]. eapply Hs; eauto.
Qed.

Lemma scored_zAdd (m : QueueItem) (q : Redis.zset) :
  scored q -> scored (Redis.zAdd (calculateScore (priority m) (createdAt m)) m q).
Proof.
  intros Hs s x [Heq | Hin].
  - inversion Heq; subst. reflexivity.
  - eapply scored_without; eauto.
Qed.

Lemma waiting_entry (x : QueueItem) (st : State) :
  scored (priorityQueue st) -> waiting x st ->
  In (calculateScore (priority x) (createdAt x), x) (priorityQueue st).
Proof.
  unfold waiting. intros Hs Hin. apply in_map_iff in Hin as [[s m] [Hm Hin]].
  simpl in Hm. subst m. rewrite <- (Hs _ _ Hin). exact Hin.
Qed.

Lemma zAdd_keeps (m x : QueueItem) (q : Redis.zset) :
  scored q -> In x (map snd q) ->
  In x (map snd (Redis.zAdd (calculateScore (priority m) (createdAt m)) m q)).
Proof.
  intros Hs Hw. simpl.
  destruct (decide (m = x)) as [Hx | Hx]; [left; exact Hx|].
  right. apply in_map_iff in Hw as [e [He Hin]]. apply in_map_iff.
  exists e. split; [exact He|]. apply in_without. split; [exact Hin|].
  rewrite He. intros Heq. apply Hx. symmetry. exact Heq.
Qed.

Lemma addToQueue_scored (c : EnqueueCall) (st st' : State) :
  addToQueue c st = Some st' ->
  scored (priorityQueue st) -> scored (priorityQueue st').
Proof.
  unfold addToQueue. destruct (plan c) as [pl|]; [|discriminate].
  intros Heq Hs. inversion Heq; subst; clear Heq. simpl.
  apply scored_zAdd with (m := newItem c (getUserPriority pl)). exact Hs.
Qed.

Lemma addToQueue_keeps (c : EnqueueCall) (st st' : State) (x : QueueItem) :
  addToQueue c st = Some st' ->
  scored (priorityQueue st) -> waiting x st -> waiting x st'.
Proof.
  unfold addToQueue. destruct (plan c) as [pl|]; [|discriminate].
  intros Heq Hs Hw. inversion Heq; subst; clear Heq. unfold waiting. simpl priorityQueue.
  apply zAdd_keeps with (m := newItem c (getUserPriority pl)); assumption.
Qed.

Lemma restore_scored (l : list QueueItem) (q : Redis.zset) :
  scored q ->
  scored (fold_left (fun q queueItem =>
                       Redis.zAdd (calculateScore (priority queueItem) (createdAt queueItem))
                                  queueItem q) l q).
Proof.
  revert q. induction l as [|m l IH]; intros q Hs; simpl; [exact Hs|].
  apply IH. apply scored_zAdd. exact Hs.
Qed.

Lemma restore_keeps (l : list QueueItem) (q : Redis.zset) (x : QueueItem) :
  scored q -> In x (map snd q) ->
  In x (map snd (fold_left (fun q queueItem =>
                       Redis.zAdd (calculateScore (priority queueItem) (createdAt queueItem))
                                  queueItem q) l q)).
Proof.
  revert q. induction l as [|m l IH]; intros q Hs Hw; [exact Hw|].
  cbn [fold_left]. apply IH.
  - apply scored_zAdd. exact Hs.
  - apply zAdd_keeps; assumption.
Qed.

Lemma waiting_finish (x y : QueueItem) (st : State) :
  waiting x (finish y st) <-> waiting x st.
Proof. unfold waiting, finish. simpl. tauto. Qed.

End Scores.

Section LeaseOrder.
Import QueueService.
Variable memberLt : QueueItem -> QueueItem -> bool.

(** A lease hands out an entry no waiting item outranks, and leaves every
    other waiting item in the queue. *)
Lemma leaseNext_some (st st' : State) (x : QueueItem) :
  leaseNext memberLt st = Some (x, st') ->
  scored (priorityQueue st) ->
  waiting x st
  /\ scored (priorityQueue st')
  /\ (forall y, waiting y st ->
        (calculateScore (priority y) (createdAt y)
         <= calculateScore (priority x) (createdAt x))%Z)
  /\ (forall y, waiting y st -> y <> x -> waiting y st')
  /\ (length (priorityQueue st') < length (priorityQueue st))%nat.
Proof.
  unfold leaseNext.
  destruct (Redis.zPopMax memberLt (priorityQueue st)) as [[e q']|] eqn:Hpop; [|discriminate].
  intros Heq Hs. inversion Heq; subst; clear Heq. simpl.
  apply zPopMax_some in Hpop as (Hin & -> & Hmax).
  destruct e as [s m]. simpl in *. pose proof (Hs _ _ Hin) as Hsm.
  split; [|split; [|split; [|split]]].
  - unfold waiting. apply in_map_iff. exists (s, m). auto.
  - apply scored_without. exact Hs.
  - intros y Hy. pose proof (waiting_entry y st Hs Hy) as Hy'.
    specialize (Hmax _ Hy'). simpl in Hmax. lia.
  - intros y Hy Hne. pose proof (waiting_entry y st Hs Hy) as Hy'.
    unfold waiting. simpl. apply in_map_iff.
    exists (calculateScore (priority y) (createdAt y), y). split; [reflexivity|].
    apply in_without. split; [exact Hy' | exact Hne].
  - apply (without_shrinks (s, m)). exact Hin.
Qed.

(** One event keeps the sorted set scored.  An item that waits keeps
    waiting unless the event leases it, and an item the event leases is
    outranked by no waiting item. *)
Lemma step_keeps (ev : Event) (st st' : State) (out : option QueueItem) (a : QueueItem) :
  step memberLt ev st = (out, st') ->
  scored (priorityQueue st) -> waiting a st ->
  scored (priorityQueue st')
  /\ (out <> Some a -> waiting a st')
  /\ (forall x, out = Some x ->
        (calculateScore (priority a) (createdAt a)
         <= calculateScore (priority x) (createdAt x))%Z).
Proof.
  intros Hstep Hs Hw. destruct ev as [c | | y | ]; simpl in Hstep.
  - destruct (addToQueue c st) as [st1|] eqn:Hadd; inversion Hstep; subst.
    + split; [eapply addToQueue_scored; eauto|].
      split; [intros _; eapply addToQueue_keeps; eauto | discriminate].
    + split; [exact Hs|]. split; [intros _; exact Hw | discriminate].
  - destruct (leaseNext memberLt st) as [[x st1]|] eqn:Hlease; inversion Hstep; subst.
    + destruct (leaseNext_some _ _ _ Hlease Hs) as (_ & Hs' & Hmax & Hrest & _).
      split; [exact Hs'|]. split.
      * intros Hne. apply Hrest; [exact Hw | congruence].
      * intros x' Hx'. inversion Hx'; subst. apply Hmax. exact Hw.
    + split; [exact Hs|]. split; [intros _; exact Hw | discriminate].
  - inversion Hstep; subst.
    split; [exact Hs|]. split; [intros _; apply waiting_finish; exact Hw | discriminate].
  - inversion Hstep; subst. split; [|split; [intros _ | discriminate]].
    + apply restore_scored. exact Hs.
    + apply restore_keeps; assumption.
Qed.

(** While [a] waits with a higher score than [b], whatever producers and
    workers do, [b] is not leased before [a]. *)
Lemma outranked_waits (a b : QueueItem) :
  (calculateScore (priority b) (createdAt b)
   < calculateScore (priority a) (createdAt a))%Z ->
  forall evs st l1 l2,
    scored (priorityQueue st) -> waiting a st ->
    leased memberLt evs st = (l1 ++ b :: l2)%list -> In a l1.
Proof.
  intros Hlt. induction evs as [|ev evs IH]; intros st l1 l2 Hs Hw Hrun; simpl in Hrun.
  - destruct l1; discriminate.
  - destruct (step memberLt ev st) as [out st'] eqn:Hstep.
    destruct (step_keeps _ _ _ _ a Hstep Hs Hw) as (Hs' & Hkeep & Hmax).
    destruct out as [x|].
    + assert (x <> b) as Hxb.
      { intros ->. specialize (Hmax b eq_refl). lia. }
      destruct l1 as [|y l1]; simpl in Hrun; inversion Hrun; subst; [congruence|].
      destruct (decide (a = y)) as [-> | Hay]; [left; reflexivity|].
      right. apply (IH st' l1 l2); [exact Hs' | | assumption].
      apply Hkeep. congruence.
    + apply (IH st' l1 l2); [exact Hs' | | exact Hrun].
      apply Hkeep. discriminate.
Qed.

(** Leasing as many times as the queue has entries hands out every waiting
    item. *)
Lemma drained (n : nat) :
  forall st x,
    scored (priorityQueue st) -> (length (priorityQueue st) <= n)%nat ->
    waiting x st -> In x (leased memberLt (repeat Lease n) st).
Proof.
  induction n as [|n IH]; intros st x Hs Hlen Hw.
  - unfold waiting in Hw. destruct (priorityQueue st); simpl in *; [tauto | lia].
  - simpl. destruct (leaseNext memberLt st) as [[y st']|] eqn:Hlease.
    + destruct (leaseNext_some _ _ _ Hlease Hs) as (_ & Hs' & _ & Hrest & Hshrink).
      destruct (decide (x = y)) as [-> | Hxy]; [left; reflexivity|].
      right. apply IH; auto. lia.
    + unfold leaseNext in Hlease.
      destruct (Redis.zPopMax memberLt (priorityQueue st)) as [[e q']|] eqn:Hpop; [discriminate|].
      apply zPopMax_none in Hpop. unfold waiting in Hw. rewrite Hpop in Hw. destruct Hw.
Qed.

(** Events keep the sorted set scored. *)
Lemma reachable_scored (evs : list Event) :
  forall st, scored (priorityQueue st) ->
             scored (priorityQueue (stateAfter memberLt evs st)).
Proof.
  induction evs as [|ev evs IH]; intros st Hs; simpl; [exact Hs|].
  apply IH. destruct ev as [c | | y | ]; simpl.
  - destruct (addToQueue c st) as [st1|] eqn:Hadd; simpl; [|exact Hs].
    eapply addToQueue_scored; eauto.
  - destruct (leaseNext memberLt st) as [[x st1]|] eqn:Hlease; simpl; [|exact Hs].
    destruct (leaseNext_some _ _ _ Hlease Hs) as (_ & Hs' & _). exact Hs'.
  - exact Hs.
  - apply restore_scored. exact Hs.
Qed.

(** Every state the service reaches from the empty queue is scored. *)
Lemma service_states_scored (evs : list Event) :
  scored (priorityQueue (stateAfter memberLt evs empty)).
Proof. apply reachable_scored. intros s m []. Qed.

End LeaseOrder.

(** ** Lease order of the Redis queue *)

Example scenario_lease_order :
  QueueService.leased Scenario.anyOrder
    [QueueService.Lease; QueueService.Lease; QueueService.Lease] Scenario.threeWaiting
  = [Scenario.enterpriseItem; Scenario.proItem; Scenario.freeItem].
Proof. vm_compute. reflexivity. Qed.

(** C2. For two jobs A and B waiting in the priority queue: if A has the
    lower priority number (both enqueue clocks being epoch milliseconds below
    10^13), or the same priority and the earlier enqueue time, then A is
    leased before B.  Whatever producers and workers do from then on, a lease
    of B is preceded by a lease of A; and draining the queue leases A and,
    later, B. *)
Theorem lease_priority_then_fifo
    (memberLt : QueueService.QueueItem -> QueueService.QueueItem -> bool)
    (st : QueueService.State) (a b : QueueService.QueueItem) :
  QueueService.scored (QueueService.priorityQueue st) ->
  QueueService.waiting a st ->
  QueueService.waiting b st ->
  ((QueueService.priority a < QueueService.priority b)%Z
   /\ (0 <= QueueService.createdAt a < 10 ^ 13)%Z
   /\ (0 <= QueueService.createdAt b < 10 ^ 13)%Z)
  \/ (QueueService.priority a = QueueService.priority b
      /\ (QueueService.createdAt a < QueueService.createdAt b)%Z) ->
  (forall evs l1 l2,
      QueueService.leased memberLt evs st = (l1 ++ b :: l2)%list -> In a l1)
  /\ (exists l1 l2 l3,
        QueueService.leased memberLt
          (repeat QueueService.Lease (Redis.zCard (QueueService.priorityQueue st))) st
        = (l1 ++ a :: l2 ++ b :: l3)%list).
Proof.
  intros Hs Ha Hb Hord.
  assert (QueueService.calculateScore (QueueService.priority b) (QueueService.createdAt b)
          < QueueService.calculateScore (QueueService.priority a) (QueueService.createdAt a))%Z
    as Hlt.
  { destruct Hord as [(Hp & Hta & Htb) | (Hp & Ht)].
    - apply score_priority; lia.
    - rewrite Hp. apply score_fifo. exact Ht. }
  assert (forall evs l1 l2,
             QueueService.leased memberLt evs st = (l1 ++ b :: l2)%list -> In a l1)
    as Hsafe.
  { intros evs l1 l2 Hrun. eapply outranked_waits; eauto. }
  split; [exact Hsafe|].
  pose proof (drained memberLt (Redis.zCard (QueueService.priorityQueue st)) st b Hs
                (Nat.le_refl _) Hb) as Hin.
  apply in_split in Hin as (l & l3 & Hrun).
  pose proof (Hsafe _ _ _ Hrun) as Hal.
  apply in_split in Hal as (l1 & l2 & ->).
  exists l1, l2, l3. rewrite Hrun. rewrite <- app_assoc. reflexivity.
Qed.

Lemma threeWaiting_scored :
  QueueService.scored (QueueService.priorityQueue Scenario.threeWaiting).
Proof.
  intros s m Hin. vm_compute in Hin.
  destruct Hin as [Hin | [Hin | [Hin | []]]]; inversion Hin; subst; reflexivity.
Qed.

Lemma lease_priority_then_fifo_witness :
  QueueService.waiting Scenario.enterpriseItem Scenario.threeWaiting
  /\ QueueService.waiting Scenario.freeItem Scenario.threeWaiting
  /\ (QueueService.priority Scenario.enterpriseItem
      < QueueService.priority Scenario.freeItem)%Z
  /\ (exists l1 l2 l3,
        QueueService.leased Scenario.anyOrder
          (repeat QueueService.Lease
             (Redis.zCard (QueueService.priorityQueue Scenario.threeWaiting)))
          Scenario.threeWaiting
        = (l1 ++ Scenario.enterpriseItem :: l2 ++ Scenario.freeItem :: l3)%list).
Proof.
  assert (QueueService.waiting Scenario.enterpriseItem Scenario.threeWaiting) as Ha.
  { vm_compute. left. reflexivity. }
  assert (QueueService.waiting Scenario.freeItem Scenario.threeWaiting) as Hb.
  { vm_compute. right. right. left. reflexivity. }
  split; [exact Ha|]. split; [exact Hb|]. split; [vm_compute; reflexivity|].
  apply (lease_priority_then_fifo Scenario.anyOrder Scenario.threeWaiting
           Scenario.enterpriseItem Scenario.freeItem threeWaiting_scored Ha Hb).
  left. vm_compute. intuition congruence.
Defined.

(** ** Link classification *)
Section Classification.
Import LinkAnalyzer.

Lemma forEach_hasSponsored (links : list TargetLink) (i : nat) (fl : Flags) :
  hasSponsored (forEach links i fl)
  = hasSponsored fl || existsb (relHas "sponsored") links.
Proof.
  revert i fl. induction links as [|l links IH]; intros i fl; simpl.
  - rewrite orb_false_r. reflexivity.
  - rewrite IH. unfold visit, relHas. simpl.
    destruct (JS.includes (JS.toLowerCase (rel l)) "sponsored"), (hasSponsored fl);
      reflexivity.
Qed.

Lemma forEach_hasUgc (links : list TargetLink) (i : nat) (fl : Flags) :
  hasUgc (forEach links i fl) = hasUgc fl || existsb (relHas "ugc") links.
Proof.
  revert i fl. induction links as [|l links IH]; intros i fl; simpl.
  - rewrite orb_false_r. reflexivity.
  - rewrite IH. unfold visit, relHas. simpl.
    destruct (JS.includes (JS.toLowerCase (rel l)) "ugc"), (hasUgc fl); reflexivity.
Qed.

Lemma forEach_hasNofollow (links : list TargetLink) (i : nat) (fl : Flags) :
  hasNofollow (forEach links i fl)
  = hasNofollow fl || existsb (relHas "nofollow") links.
Proof.
  revert i fl. induction links as [|l links IH]; intros i fl; simpl.
  - rewrite orb_false_r. reflexivity.
  - rewrite IH. unfold visit, relHas. simpl.
    destruct (JS.includes (JS.toLowerCase (rel l)) "nofollow"), (hasNofollow fl);
      reflexivity.
Qed.

Lemma forEach_hasDofollow (links : list TargetLink) (i : nat) (fl : Flags) :
  hasDofollow (forEach links i fl)
  = hasDofollow fl || existsb (fun l => negb (relHas "nofollow" l)) links.
Proof.
  revert i fl. induction links as [|l links IH]; intros i fl; simpl.
  - rewrite orb_false_r. reflexivity.
  - rewrite IH. unfold visit, relHas. simpl.
    destruct (JS.includes (JS.toLowerCase (rel l)) "nofollow"), (hasDofollow fl);
      reflexivity.
Qed.

Lemma classify_linkType (fl : Flags) :
  linkType (classify fl)
  = if hasSponsored fl then sponsored
    else if hasUgc fl then ugc
    else if hasNofollow fl && negb (hasDofollow fl) then nofollow
    else dofollow.
Proof.
  unfold classify.
  destruct (hasSponsored fl), (hasUgc fl), (hasNofollow fl), (hasDofollow fl);
    reflexivity.
Qed.

(** The browser-side classifier follows the precedence of the spec over the
    union of the matches: with at least one candidate link it reports a found
    link whose class is [unionPrecedence] of all the candidates. *)
Lemma findTargetLinks_precedence (carriers : list Carrier) (domain : string) :
  targetLinks carriers domain <> [] ->
  found (findTargetLinks (Some carriers) domain) = true
  /\ linkType (findTargetLinks (Some carriers) domain)
     = unionPrecedence (targetLinks carriers domain).
Proof.
  intros Hne. unfold findTargetLinks.
  destruct (targetLinks carriers domain) as [|l links] eqn:Hl; [congruence|].
  split.
  - unfold classify.
    repeat match goal with |- context [if ?c then _ else _] => destruct c end;
      reflexivity.
  - rewrite classify_linkType, forEach_hasSponsored, forEach_hasUgc,
      forEach_hasNofollow, forEach_hasDofollow.
    reflexivity.
Qed.

Lemma findTargetLinks_no_candidate (carriers : list Carrier) (domain : string) :
  targetLinks carriers domain = [] ->
  findTargetLinks (Some carriers) domain = notFound.
Proof. unfold findTargetLinks. intros ->. reflexivity. Qed.

End Classification.

(** What the proxy extractor reports for a page with one anchor to the
    target: the class comes from the rel value with nofollow tested first. *)
Example extract_nofollow_sponsored (laterPasses : string -> string -> option (list ScrapeDoService.FoundLink)) :
  ScrapeDoService.extractLinksFromHtml laterPasses
    (Scenario.anchorHtml "nofollow sponsored") "target.com"
  = Finding true nofollow (Some (Scenario.anchorHtml "nofollow sponsored")).
Proof. vm_compute. reflexivity. Qed.

Example extract_plain_anchor (laterPasses : string -> string -> option (list ScrapeDoService.FoundLink)) :
  linkType (ScrapeDoService.extractLinksFromHtml laterPasses
              "<p>see <a class='ext' href='https://www.target.com/'>here</a></p>"
              "https://www.Target.com")
  = dofollow.
Proof. vm_compute. reflexivity. Qed.

(** C1. The browser-side classifier applies the precedence of the claim
    (sponsored over ugc over nofollow), but the proxy-fallback extractor does
    not use the same precedence: it tests nofollow first.  On a page whose
    only link to the target is one anchor with rel [nofollow sponsored], or
    with rel [nofollow ugc], the browser-side classifier reports sponsored,
    respectively ugc, and the proxy extractor reports nofollow for both. *)
Theorem proxy_extractor_precedence_differs
    (laterPasses : string -> string -> option (list ScrapeDoService.FoundLink)) :
  linkType (LinkAnalyzer.findTargetLinks
              (Some [Scenario.anchorCarrier "nofollow sponsored"]) "target.com")
  = sponsored
  /\ linkType (ScrapeDoService.extractLinksFromHtml laterPasses
                 (Scenario.anchorHtml "nofollow sponsored") "target.com")
     = nofollow
  /\ linkType (LinkAnalyzer.findTargetLinks
                 (Some [Scenario.anchorCarrier "nofollow ugc"]) "target.com")
     = ugc
  /\ linkType (ScrapeDoService.extractLinksFromHtml laterPasses
                 (Scenario.anchorHtml "nofollow ugc") "target.com")
     = nofollow.
Proof. repeat split; vm_compute; reflexivity. Qed.

(** ** Job identity in the BullMQ queue *)
Section JobIdentity.
Import BullMQService.

Lemma jobData_id (type : QueueService.JobType) (userId projectId url targetDomain : string)
    (linkId sheetId : option string) :
  id (jobData type userId projectId url targetDomain linkId sheetId)
  = QueueService.typeName type ++ ":" ++ url.
Proof. reflexivity. Qed.

(** The id text determines the kind and the URL. *)
Lemma id_text_injective (t1 t2 : QueueService.JobType) (url1 url2 : string) :
  QueueService.typeName t1 ++ ":" ++ url1 = QueueService.typeName t2 ++ ":" ++ url2 ->
  t1 = t2 /\ url1 = url2.
Proof.
  destruct t1, t2; cbv [String.append QueueService.typeName]; intros Heq.
  - split; [reflexivity|]. inversion Heq. reflexivity.
  - discriminate.
  - discriminate.
  - split; [reflexivity|]. inversion Heq. reflexivity.
Qed.

(** An enqueue of an id that is already waiting changes nothing. *)
Lemma add_waiting (d : LinkAnalysisJobData) (o : BullMQ.JobOptions)
    (q : Store) (j : Job) :
  BullMQ.jobs q !! BullMQ.o_jobId o = Some j ->
  BullMQ.state j = BullMQ.Waiting ->
  BullMQ.add BullMQ.Reachable d o q = Some q.
Proof. unfold BullMQ.add. intros -> ->. reflexivity. Qed.

(** An enqueue of an id the store does not know leaves a waiting job with
    the data of the call. *)
Lemma add_fresh (d : LinkAnalysisJobData) (o : BullMQ.JobOptions) (q : Store) :
  BullMQ.jobs q !! BullMQ.o_jobId o = None ->
  BullMQ.add BullMQ.Reachable d o q = Some (BullMQ.queued d o q)
  /\ BullMQ.jobs (BullMQ.queued d o q) !! BullMQ.o_jobId o = Some (BullMQ.newJob d o).
Proof.
  unfold BullMQ.add, BullMQ.queued. intros ->. split; [reflexivity|].
  apply lookup_insert_eq.
Qed.

(** An enqueue of an id in flight is held back, and queued as a waiting job
    once the lease ends with a completed record. *)
Lemma add_in_flight (d : LinkAnalysisJobData) (o : BullMQ.JobOptions)
    (q : Store) (j done : Job) :
  BullMQ.jobs q !! BullMQ.o_jobId o = Some j ->
  BullMQ.state j = BullMQ.Active ->
  BullMQ.deferred q !! BullMQ.o_jobId o = None ->
  BullMQ.jid done = BullMQ.o_jobId o ->
  BullMQ.state done = BullMQ.Completed ->
  exists q',
    BullMQ.add BullMQ.Reachable d o q = Some q'
    /\ BullMQ.jobs q' = BullMQ.jobs q
    /\ BullMQ.jobs (BullMQ.leaseEnds done q') !! BullMQ.o_jobId o
       = Some (BullMQ.newJob d o).
Proof.
  intros Hj Hs Hd Hid Hdone. unfold BullMQ.add. rewrite Hj, Hs, Hd.
  eexists. split; [reflexivity|]. split; [reflexivity|].
  unfold BullMQ.leaseEnds. cbn [BullMQ.deferred BullMQ.jobs].
  rewrite Hid, lookup_insert_eq, Hdone. cbn [BullMQ.jobs].
  apply lookup_insert_eq.
Qed.

Lemma filter_length_perm {A : Type} (f : A -> bool) (l l' : list A) :
  l ≡ₚ l' -> length (List.filter f l) = length (List.filter f l').
Proof.
  induction 1 as [|x l l' _ IH|x y l|l l' l'' _ IH1 _ IH2]; simpl.
  - reflexivity.
  - destruct (f x); simpl; congruence.
  - destruct (f x), (f y); reflexivity.
  - congruence.
Qed.

(** A new waiting job makes the waiting set one larger. *)
Lemma getWaiting_grows (d : LinkAnalysisJobData) (o : BullMQ.JobOptions)
    (m : gmap string Job) :
  m !! BullMQ.o_jobId o = None ->
  length (List.filter BullMQ.isWaiting
            (map snd (map_to_list (<[BullMQ.o_jobId o := BullMQ.newJob d o]> m))))
  = S (length (List.filter BullMQ.isWaiting (map snd (map_to_list m)))).
Proof.
  intros Hm.
  rewrite (filter_length_perm _ _
             (map snd ((BullMQ.o_jobId o, BullMQ.newJob d o) :: map_to_list m))).
  - reflexivity.
  - apply Permutation_map. apply map_to_list_insert. exact Hm.
Qed.

End JobIdentity.

(** Through [QueueService.addToQueue] the id is built from the clock and a
    random suffix: the same enqueue twice gives two ids and two waiting
    entries, so this path deduplicates nothing. *)
Lemma addToQueue_ids_differ :
  map (fun e => QueueService.id (snd e))
      (QueueService.priorityQueue Scenario.sameTwice)
  = ["manual_1700000000001_a8s7d6f5g"; "manual_1700000000000_k3j9x2m1q"]
  /\ Redis.zCard (QueueService.priorityQueue Scenario.sameTwice) = 2%nat.
Proof.
  repeat split; vm_compute; reflexivity.
Qed.

(** C3.  The job id of [addLinkAnalysisJob] is built from the kind and the
    source URL alone; the project id is not part of it.  Two enqueues get the
    same id exactly when they agree on kind and source URL, whatever their
    projects, users, targets and link or sheet ids.  So when one project (or
    row) has enqueued a page and its job is waiting, the enqueue of the same
    page for another project (or row) is dropped as a duplicate: the store is
    unchanged and the job under the shared id is still that of the first,
    with the first's project, link id and target domain. *)
Theorem job_id_drops_project_id
    (t1 t2 : QueueService.JobType)
    (u1 p1 url1 d1 u2 p2 url2 d2 : string) (l1 s1 l2 s2 : option string)
    (q : BullMQService.Store) :
  let a := BullMQService.jobData t1 u1 p1 url1 d1 l1 s1 in
  let b := BullMQService.jobData t2 u2 p2 url2 d2 l2 s2 in
  BullMQ.jobs q !! BullMQService.id a = None ->
  (BullMQService.id a = BullMQService.id b <-> t1 = t2 /\ url1 = url2)
  /\ (t1 = t2 -> url1 = url2 ->
      exists qa,
        BullMQService.addLinkAnalysisJob BullMQService.BothReturn
          t1 u1 p1 url1 d1 l1 s1 (Some q) = BullMQService.Returned a qa
        /\ BullMQService.addLinkAnalysisJob BullMQService.BothReturn
             t2 u2 p2 url2 d2 l2 s2 (Some qa) = BullMQService.Returned b qa
        /\ BullMQ.jobs qa !! BullMQService.id b
           = Some (BullMQ.newJob a (BullMQService.jobOptions a))
        /\ length (BullMQ.getWaiting qa) = S (length (BullMQ.getWaiting q))).
Proof.
  intros a b Hq.
  split.
  - subst a b. rewrite !jobData_id. split.
    + apply id_text_injective.
    + intros [-> ->]. reflexivity.
  - intros <- <-.
    destruct (add_fresh a (BullMQService.jobOptions a) q Hq) as [Hadd Hjob].
    exists (BullMQ.queued a (BullMQService.jobOptions a) q).
    split; [|split; [|split]].
    + unfold BullMQService.addLinkAnalysisJob. fold a. cbn [BullMQService.storageAtAdd].
      rewrite Hadd. reflexivity.
    + unfold BullMQService.addLinkAnalysisJob. fold b. cbn [BullMQService.storageAtAdd].
      rewrite (add_waiting b (BullMQService.jobOptions b) _ _ Hjob eq_refl). reflexivity.
    + exact Hjob.
    + unfold BullMQ.getWaiting, BullMQ.queued. cbn [BullMQ.jobs].
      apply getWaiting_grows. exact Hq.
Qed.

Lemma job_id_drops_project_id_witness :
  BullMQService.projectId Scenario.jobOfProjectA <> BullMQService.projectId Scenario.jobOfProjectB
  /\ BullMQService.id Scenario.jobOfProjectA = BullMQService.id Scenario.jobOfProjectB
  /\ exists qa,
      BullMQService.addLinkAnalysisJob BullMQService.BothReturn QueueService.manual
        "user-1" "project-a" Scenario.pageUrl "target.com" (Some "link-1") None
        (Some BullMQ.emptyStore)
      = BullMQService.Returned Scenario.jobOfProjectA qa
      /\ BullMQService.addLinkAnalysisJob BullMQService.BothReturn QueueService.manual
           "user-2" "project-b" Scenario.pageUrl "other.org" (Some "link-2") None
           (Some qa)
         = BullMQService.Returned Scenario.jobOfProjectB qa
      /\ BullMQ.data <$> (BullMQ.jobs qa !! BullMQService.id Scenario.jobOfProjectB)
         = Some Scenario.jobOfProjectA.
Proof.
  destruct (job_id_drops_project_id QueueService.manual QueueService.manual
              "user-1" "project-a" Scenario.pageUrl "target.com"
              "user-2" "project-b" Scenario.pageUrl "other.org"
              (Some "link-1") None (Some "link-2") None
              BullMQ.emptyStore (lookup_empty _)) as [Hid Hdrop].
  destruct (Hdrop eq_refl eq_refl) as (qa & Ha & Hb & Hjob & _).
  split; [discriminate|].
  split; [apply Hid; split; reflexivity|].
  exists qa. split; [exact Ha|]. split; [exact Hb|].
  unfold Scenario.jobOfProjectB. rewrite Hjob. reflexivity.
Defined.

(** ** Failure handling in the BullMQ queue *)
Section Failure.
Import BullMQService.

(** The queue is configured as the spec's Fail describes: a rejected first
    attempt is retried after 2 s, a rejected second attempt after 4 s, and a
    rejected third attempt goes to the failed set. *)
Lemma settle_rejected (j : Job) (reason : string) :
  BullMQ.opts j = jobOptions (BullMQ.data j) ->
  BullMQ.state (BullMQ.settle j (BullMQ.Rejected reason))
  = if (BullMQ.attemptsMade j + 1 <? 3)%Z
    then BullMQ.Delayed (2000 * 2 ^ BullMQ.attemptsMade j)
    else BullMQ.Failed.
Proof.
  intros Ho. unfold BullMQ.settle. rewrite Ho. simpl.
  unfold MAX_ATTEMPTS, BullMQ.backoffDelay. simpl.
  destruct (BullMQ.attemptsMade j + 1 <? 3)%Z; reflexivity.
Qed.

Lemma settle_rejected_not_completed (j : Job) (reason : string) :
  BullMQ.state (BullMQ.settle j (BullMQ.Rejected reason)) <> BullMQ.Completed.
Proof.
  unfold BullMQ.settle.
  destruct (BullMQ.attemptsMade j + 1 <? BullMQ.o_attempts (BullMQ.opts j))%Z;
    simpl; discriminate.
Qed.

(** The processor never rejects: every path of [processLinkAnalysisJob]
    returns a value. *)
Lemma processor_always_resolves (env : Env) (job : Job) :
  exists r, fst (processLinkAnalysisJob env job) = BullMQ.Resolved r.
Proof.
  unfold processLinkAnalysisJob, failure.
  destruct (analyzeLink env _ _) as [e | r]; simpl; [eauto|].
  destruct (type (BullMQ.data job)); [|simpl; eauto].
  destruct (linkId (BullMQ.data job)) as [l|]; [|simpl; eauto].
  destruct (update env l r); simpl; eauto.
Qed.

Lemma every_run_completes (env : Env) (job : Job) :
  BullMQ.state (workerRun env job) = BullMQ.Completed.
Proof.
  unfold workerRun.
  destruct (processor_always_resolves env job) as [r ->]. reflexivity.
Qed.

Lemma failing_outcome (env : Env) (job : Job) (e : Thrown) :
  processingFails env (BullMQ.data job) e ->
  fst (processLinkAnalysisJob env job)
  = BullMQ.Resolved {| success := false; result := None;
                       error := Some (errorMessage e);
                       processedAt := clock env |}.
Proof.
  unfold processingFails, processLinkAnalysisJob, failure.
  intros [Ha | (r & l & Ha & Ht & Hl & Hu)]; rewrite Ha; [reflexivity|].
  rewrite Ht, Hl, Hu. reflexivity.
Qed.

End Failure.

(** C4.  What the code does with a job whose processing fails: the
    processor catches the error and returns a result with [success = false],
    so the queue records the job as completed on its first attempt.  It is
    neither retried after a backoff nor moved to the failed set, which is what
    the queue does with a rejected outcome. *)
Theorem failed_job_recorded_completed
    (env : BullMQService.Env) (job : BullMQService.Job) (e : BullMQService.Thrown) :
  BullMQService.processingFails env (BullMQ.data job) e ->
  BullMQ.state (BullMQService.workerRun env job) = BullMQ.Completed
  /\ BullMQ.returnvalue (BullMQService.workerRun env job)
     = Some {| BullMQService.success := false;
               BullMQService.result := None;
               BullMQService.error := Some (BullMQService.errorMessage e);
               BullMQService.processedAt := BullMQService.clock env |}
  /\ (forall reason,
        BullMQ.state (BullMQ.settle job (BullMQ.Rejected (R := BullMQService.AnalysisJobResult) reason))
        <> BullMQ.Completed).
Proof.
  intros Hfail. split; [apply every_run_completes|]. split.
  - unfold BullMQService.workerRun. rewrite (failing_outcome env job e Hfail).
    reflexivity.
  - intros reason. apply settle_rejected_not_completed.
Qed.

Lemma failed_job_recorded_completed_witness :
  BullMQService.processingFails Scenario.databaseDown
    (BullMQ.data Scenario.firstAttempt)
    (BullMQService.ErrorObject "Connection terminated unexpectedly")
  /\ BullMQ.state (BullMQService.workerRun Scenario.databaseDown Scenario.firstAttempt)
     = BullMQ.Completed
  /\ BullMQ.attemptsMade Scenario.firstAttempt = 0%Z
  /\ BullMQ.state (BullMQ.settle Scenario.firstAttempt
                     (BullMQ.Rejected (R := BullMQService.AnalysisJobResult)
                        "Connection terminated unexpectedly"))
     = BullMQ.Delayed 2000.
Proof.
  assert (BullMQService.processingFails Scenario.databaseDown
            (BullMQ.data Scenario.firstAttempt)
            (BullMQService.ErrorObject "Connection terminated unexpectedly")) as Hfail.
  { right. exists Scenario.verdict, "link-1". repeat split; reflexivity. }
  split; [exact Hfail|]. split.
  - apply (failed_job_recorded_completed Scenario.databaseDown Scenario.firstAttempt
             (BullMQService.ErrorObject "Connection terminated unexpectedly") Hfail).
  - split; reflexivity.
Defined.

(** * Further properties of the services *)

(** ** Strings *)
Section StringFacts.

Lemma append_nil_l (s : string) : EmptyString ++ s = s.
Proof. reflexivity. Qed.

Lemma append_cons (c : ascii) (s t : string) : String c s ++ t = String c (s ++ t).
Proof. reflexivity. Qed.

Lemma length_append (s t : string) :
  String.length (s ++ t) = (String.length s + String.length t)%nat.
Proof.
  induction s as [|c s IH]; [reflexivity|].
  rewrite append_cons. simpl. rewrite IH. reflexivity.
Qed.

Lemma substring_all (s : string) : substring 0 (String.length s) s = s.
Proof. induction s as [|c s IH]; simpl; [reflexivity | rewrite IH; reflexivity]. Qed.

Lemma substring_suffix (p suffix : string) :
  substring (String.length p) (String.length suffix) (p ++ suffix) = suffix.
Proof.
  induction p as [|c p IH].
  - rewrite append_nil_l. apply substring_all.
  - rewrite append_cons. simpl. exact IH.
Qed.

Lemma substring_split (s : string) :
  forall i, (i <= String.length s)%nat ->
            s = substring 0 i s ++ substring i (String.length s - i) s.
Proof.
  induction s as [|c s IH]; intros i Hi.
  - simpl in Hi. assert (i = 0%nat) as -> by lia. reflexivity.
  - destruct i as [|i].
    + simpl substring at 1. rewrite append_nil_l.
      rewrite Nat.sub_0_r. symmetry. apply substring_all.
    + simpl in Hi. simpl. rewrite append_cons. f_equal. apply IH. lia.
Qed.

(** [endsWith] holds exactly for the strings that end with the suffix. *)
Lemma endsWith_iff (s suffix : string) :
  JS.endsWith s suffix = true <-> exists p, s = p ++ suffix.
Proof.
  unfold JS.endsWith. split.
  - destruct (Nat.ltb (String.length s) (String.length suffix)) eqn:Hlt; [discriminate|].
    apply Nat.ltb_ge in Hlt. intros Heq. apply String.eqb_eq in Heq.
    exists (substring 0 (String.length s - String.length suffix) s).
    rewrite <- Heq at 2.
    pose proof (substring_split s (String.length s - String.length suffix)) as Hs.
    replace (String.length s - (String.length s - String.length suffix))%nat
      with (String.length suffix) in Hs by lia.
    apply Hs. lia.
  - intros [p ->]. rewrite length_append.
    destruct (Nat.ltb (String.length p + String.length suffix) (String.length suffix)) eqn:Hlt.
    + apply Nat.ltb_lt in Hlt. lia.
    + replace (String.length p + String.length suffix - String.length suffix)%nat
        with (String.length p) by lia.
      rewrite substring_suffix. apply String.eqb_refl.
Qed.

End StringFacts.

(** ** The browser-side link search *)

(** The host test of the passes, read as a proposition. *)
Lemma hostMatches_iff (host domain : string) :
  LinkAnalyzer.hostMatches host domain = true
  <-> host = domain \/ exists sub, host = sub ++ "." ++ domain.
Proof.
  unfold LinkAnalyzer.hostMatches. rewrite orb_true_iff, String.eqb_eq, endsWith_iff.
  reflexivity.
Qed.

Section FirstTag.
Import LinkAnalyzer.

Lemma forEach_later_keeps_tag (links : list TargetLink) (i : nat) (fl : Flags) :
  firstFullTag (forEach links (S i) fl) = firstFullTag fl.
Proof.
  revert i fl. induction links as [|l links IH]; intros i fl; simpl; [reflexivity|].
  rewrite IH. reflexivity.
Qed.

Lemma forEach_first_tag (l : TargetLink) (links : list TargetLink) (fl : Flags) :
  firstFullTag (forEach (l :: links) 0 fl) = fullTag l.
Proof. simpl. rewrite forEach_later_keeps_tag. reflexivity. Qed.

Lemma classify_fullATag (fl : Flags) :
  fullATag (classify fl) = Some (firstFullTag fl).
Proof.
  unfold classify.
  repeat match goal with |- context [if ?c then _ else _] => destruct c end;
    reflexivity.
Qed.

Lemma classify_found (fl : Flags) :
  found (classify fl) = true /\ linkType (classify fl) <> not_found.
Proof.
  unfold classify.
  repeat match goal with |- context [if ?c then _ else _] => destruct c end;
    split; simpl; congruence.
Qed.

Lemma targetLinks_in (carriers : list Carrier) (domain : string) (link : TargetLink) :
  In link (targetLinks carriers domain)
  <-> exists c host,
      In c carriers /\ hostname c = Some host /\ hostMatches host domain = true
      /\ link = {| href := resolved c; rel := relOf c;
                   fullTag := fullTagOf c; type := ctype c |}.
Proof.
  induction carriers as [|c cs IH]; simpl.
  - split; [intros [] | intros (c & host & [] & _)].
  - destruct (hostname c) as [h|] eqn:Hh.
    + destruct (hostMatches h domain) eqn:Hm.
      * simpl. rewrite IH. split.
        -- intros [<- | (c' & host & Hin & Hc)].
           ++ exists c, h. auto.
           ++ exists c', host. tauto.
        -- intros (c' & host & [<- | Hin] & Hhost & Hmatch & ->).
           ++ left. reflexivity.
           ++ right. exists c', host. auto.
      * rewrite IH. split.
        -- intros (c' & host & Hin & Hc). exists c', host. tauto.
        -- intros (c' & host & [<- | Hin] & Hhost & Hmatch & ->).
           ++ congruence.
           ++ exists c', host. auto.
    + rewrite IH. split.
      * intros (c' & host & Hin & Hc). exists c', host. tauto.
      * intros (c' & host & [<- | Hin] & Hhost & Hmatch & ->).
        -- congruence.
        -- exists c', host. auto.
Qed.

End FirstTag.

(** X1. Which elements count as links to the target: [findTargetLinks] keeps,
    of the carriers its passes visit, exactly those whose URL parses and whose
    host is the target domain itself or ends with a dot followed by the
    domain, each with its resolved URL, rel and tag; and it reports the link
    as found exactly when there is such a carrier. *)
Theorem findTargetLinks_keeps_target_hosts
    (carriers : list LinkAnalyzer.Carrier) (domain : string) :
  (forall link,
      In link (LinkAnalyzer.targetLinks carriers domain)
      <-> exists c host,
          In c carriers /\ LinkAnalyzer.hostname c = Some host
          /\ (host = domain \/ exists sub, host = sub ++ "." ++ domain)
          /\ link = {| LinkAnalyzer.href := LinkAnalyzer.resolved c;
                       LinkAnalyzer.rel := LinkAnalyzer.relOf c;
                       LinkAnalyzer.fullTag := LinkAnalyzer.fullTagOf c;
                       LinkAnalyzer.type := LinkAnalyzer.ctype c |})
  /\ (found (LinkAnalyzer.findTargetLinks (Some carriers) domain) = true
      <-> exists c host,
          In c carriers /\ LinkAnalyzer.hostname c = Some host
          /\ (host = domain \/ exists sub, host = sub ++ "." ++ domain)).
Proof.
  assert (forall link,
      In link (LinkAnalyzer.targetLinks carriers domain)
      <-> exists c host,
          In c carriers /\ LinkAnalyzer.hostname c = Some host
          /\ (host = domain \/ exists sub, host = sub ++ "." ++ domain)
          /\ link = {| LinkAnalyzer.href := LinkAnalyzer.resolved c;
                       LinkAnalyzer.rel := LinkAnalyzer.relOf c;
                       LinkAnalyzer.fullTag := LinkAnalyzer.fullTagOf c;
                       LinkAnalyzer.type := LinkAnalyzer.ctype c |}) as Hin.
  { intros link. rewrite targetLinks_in. split.
    - intros (c & host & Hc & Hh & Hm & Hl). exists c, host.
      apply hostMatches_iff in Hm. auto.
    - intros (c & host & Hc & Hh & Hm & Hl). exists c, host.
      apply hostMatches_iff in Hm. auto. }
  split; [exact Hin|].
  unfold LinkAnalyzer.findTargetLinks.
  destruct (LinkAnalyzer.targetLinks carriers domain) as [|t l] eqn:Ht.
  - simpl. split; [discriminate|].
    intros (c & host & Hc & Hh & Hm).
    destruct (proj2 (Hin _) (ex_intro _ c (ex_intro _ host
                (conj Hc (conj Hh (conj Hm eq_refl)))))).
  - split.
    + intros _. destruct (proj1 (Hin t) (or_introl eq_refl))
        as (c & host & Hc & Hh & Hm & _).
      exists c, host. auto.
    + intros _. apply classify_found.
Qed.

(** X2. The tag that [findTargetLinks] reports is the one of the first
    candidate in the order of the passes, whichever candidate decides the
    class. *)
Theorem findTargetLinks_reports_first_tag
    (carriers : list LinkAnalyzer.Carrier) (domain : string)
    (first : LinkAnalyzer.TargetLink) (others : list LinkAnalyzer.TargetLink) :
  LinkAnalyzer.targetLinks carriers domain = first :: others ->
  fullATag (LinkAnalyzer.findTargetLinks (Some carriers) domain)
  = Some (LinkAnalyzer.fullTag first).
Proof.
  intros Hl. unfold LinkAnalyzer.findTargetLinks. rewrite Hl.
  rewrite classify_fullATag, forEach_first_tag. reflexivity.
Qed.

Lemma findTargetLinks_reports_first_tag_witness :
  LinkAnalyzer.targetLinks
    [Scenario.anchorCarrier "nofollow"; Scenario.anchorCarrier "sponsored"] "target.com"
  = [ {| LinkAnalyzer.href := "https://target.com/x"; LinkAnalyzer.rel := "nofollow";
         LinkAnalyzer.fullTag := Scenario.anchorHtml "nofollow";
         LinkAnalyzer.type := LinkAnalyzer.anchor |};
      {| LinkAnalyzer.href := "https://target.com/x"; LinkAnalyzer.rel := "sponsored";
         LinkAnalyzer.fullTag := Scenario.anchorHtml "sponsored";
         LinkAnalyzer.type := LinkAnalyzer.anchor |} ]
  /\ fullATag (LinkAnalyzer.findTargetLinks
                 (Some [Scenario.anchorCarrier "nofollow";
                        Scenario.anchorCarrier "sponsored"]) "target.com")
     = Some (Scenario.anchorHtml "nofollow")
  /\ linkType (LinkAnalyzer.findTargetLinks
                 (Some [Scenario.anchorCarrier "nofollow";
                        Scenario.anchorCarrier "sponsored"]) "target.com")
     = sponsored.
Proof.
  split; [vm_compute; reflexivity|]. split; [|vm_compute; reflexivity].
  apply (findTargetLinks_reports_first_tag
           [Scenario.anchorCarrier "nofollow"; Scenario.anchorCarrier "sponsored"]
           "target.com"
           {| LinkAnalyzer.href := "https://target.com/x"; LinkAnalyzer.rel := "nofollow";
              LinkAnalyzer.fullTag := Scenario.anchorHtml "nofollow";
              LinkAnalyzer.type := LinkAnalyzer.anchor |}
           [ {| LinkAnalyzer.href := "https://target.com/x"; LinkAnalyzer.rel := "sponsored";
                LinkAnalyzer.fullTag := Scenario.anchorHtml "sponsored";
                LinkAnalyzer.type := LinkAnalyzer.anchor |} ]).
  vm_compute. reflexivity.
Defined.

Lemma classifyTag_found (tag : string) : ScrapeDoService.classifyTag tag <> not_found.
Proof.
  unfold ScrapeDoService.classifyTag.
  repeat match goal with |- context [if ?c then _ else _] => destruct c end;
    discriminate.
Qed.

Lemma findTargetLinks_found_iff
    (evaluated : option (list LinkAnalyzer.Carrier)) (targetDomain : string) :
  (found (LinkAnalyzer.findTargetLinks evaluated targetDomain) = true
   <-> linkType (LinkAnalyzer.findTargetLinks evaluated targetDomain) <> not_found)
  /\ (found (LinkAnalyzer.findTargetLinks evaluated targetDomain) = true
      <-> exists tag,
          fullATag (LinkAnalyzer.findTargetLinks evaluated targetDomain) = Some tag).
Proof.
  unfold LinkAnalyzer.findTargetLinks.
  destruct evaluated as [carriers|];
    [|simpl; split; split; try congruence; intros [tag Ht]; discriminate].
  destruct (LinkAnalyzer.targetLinks carriers targetDomain) as [|t l];
    [simpl; split; split; try congruence; intros [tag Ht]; discriminate|].
  pose proof (classify_found (LinkAnalyzer.forEach (t :: l) 0 LinkAnalyzer.noFlags))
    as [Hf Hn].
  rewrite Hf, classify_fullATag. split; split; eauto.
Qed.

Lemma extractLinksFromHtml_found_iff
    (laterPasses : string -> string -> option (list ScrapeDoService.FoundLink))
    (html targetDomain : string) :
  (found (ScrapeDoService.extractLinksFromHtml laterPasses html targetDomain) = true
   <-> linkType (ScrapeDoService.extractLinksFromHtml laterPasses html targetDomain)
       <> not_found)
  /\ (found (ScrapeDoService.extractLinksFromHtml laterPasses html targetDomain) = true
      <-> exists tag,
          fullATag (ScrapeDoService.extractLinksFromHtml laterPasses html targetDomain)
          = Some tag).
Proof.
  unfold ScrapeDoService.extractLinksFromHtml.
  match goal with |- context [match ?x with Some _ => _ | None => _ end] =>
    destruct x as [[|firstLink rest]|] end; simpl;
    try (split; split; try congruence; intros [tag Ht]; discriminate).
  split; split; eauto. intros _. apply classifyTag_found.
Qed.

(** X3. Both classifiers keep [found] and [linkType] in step: the link is
    reported found exactly when its class is not [not_found], a found link
    always carries its tag, and a link that is not found carries none. *)
Theorem classifiers_found_consistent
    (evaluated : option (list LinkAnalyzer.Carrier))
    (laterPasses : string -> string -> option (list ScrapeDoService.FoundLink))
    (html targetDomain : string) :
  let dom := LinkAnalyzer.findTargetLinks evaluated targetDomain in
  let proxy := ScrapeDoService.extractLinksFromHtml laterPasses html targetDomain in
  (found dom = true <-> linkType dom <> not_found)
  /\ (found dom = true <-> exists tag, fullATag dom = Some tag)
  /\ (found proxy = true <-> linkType proxy <> not_found)
  /\ (found proxy = true <-> exists tag, fullATag proxy = Some tag).
Proof.
  cbv zeta.
  destruct (findTargetLinks_found_iff evaluated targetDomain) as [H1 H2].
  destruct (extractLinksFromHtml_found_iff laterPasses html targetDomain) as [H3 H4].
  tauto.
Qed.

(** ** Indexability *)

(** X4. The page is reported non-indexable exactly when its robots meta
    contains noindex or none, or when the X-Robots-Tag header does and the
    robots meta does not mention nofollow; the reason then echoes the
    directive.  A robots meta that mentions nofollow (without noindex or none)
    settles the answer before the header is looked at. *)
Theorem checkIndexability_blocked (robotsMeta xRobotsTag : option string) :
  indexable (LinkAnalyzer.checkIndexability robotsMeta xRobotsTag) = false
  <-> (exists m,
          present robotsMeta = Some m
          /\ LinkAnalyzer.blocksIndexing (JS.toLowerCase m) = true
          /\ reason (LinkAnalyzer.checkIndexability robotsMeta xRobotsTag)
             = Some ("Meta robots: " ++ m))
      \/ ((forall m, present robotsMeta = Some m ->
                     JS.includes (JS.toLowerCase m) "nofollow" = false)
          /\ exists x,
              present xRobotsTag = Some x
              /\ LinkAnalyzer.blocksIndexing (JS.toLowerCase x) = true
              /\ reason (LinkAnalyzer.checkIndexability robotsMeta xRobotsTag)
                 = Some ("X-Robots-Tag: " ++ x)).
Proof.
  unfold LinkAnalyzer.checkIndexability, LinkAnalyzer.headerIndexability.
  destruct (present robotsMeta) as [m|] eqn:Hm.
  - destruct (LinkAnalyzer.blocksIndexing (JS.toLowerCase m)) eqn:Hb; simpl.
    + split; [intros _; left; eauto | reflexivity].
    + destruct (JS.includes (JS.toLowerCase m) "nofollow") eqn:Hn; simpl.
      * split; [discriminate|].
        intros [(m' & Heq & Hb' & _) | (Hall & _)].
        -- inversion Heq; subst. congruence.
        -- specialize (Hall m eq_refl). congruence.
      * destruct (present xRobotsTag) as [x|] eqn:Hx.
        -- destruct (LinkAnalyzer.blocksIndexing (JS.toLowerCase x)) eqn:Hbx; simpl.
           ++ split; [intros _; right; split; [|eauto] | reflexivity].
              intros m' Heq. inversion Heq; subst. exact Hn.
           ++ destruct (JS.includes (JS.toLowerCase x) "nofollow"); simpl;
                (split; [discriminate|]);
                intros [(m' & Heq & Hb' & _) | (_ & x' & Heq & Hbx' & _)];
                inversion Heq; subst; congruence.
        -- simpl. split; [discriminate|].
           intros [(m' & Heq & Hb' & _) | (_ & x' & Heq & _)];
             [inversion Heq; subst; congruence | discriminate].
  - destruct (present xRobotsTag) as [x|] eqn:Hx.
    + destruct (LinkAnalyzer.blocksIndexing (JS.toLowerCase x)) eqn:Hbx; simpl.
      * split; [intros _; right; split; [discriminate | eauto] | reflexivity].
      * destruct (JS.includes (JS.toLowerCase x) "nofollow"); simpl;
          (split; [discriminate|]);
          intros [(m' & Heq & _) | (_ & x' & Heq & Hbx' & _)];
          [discriminate | inversion Heq; subst; congruence
          | discriminate | inversion Heq; subst; congruence].
    + simpl. split; [discriminate|].
      intros [(m' & Heq & _) | (_ & x' & Heq & _)]; discriminate.
Qed.

(** ** The rendering proxy: retries *)
Section RetryFacts.
Import ScrapeDoService.
Variable R : nat.
Variable respond : nat -> ScrapeDoResponse.

Lemma retryFrom_step (remaining attempt : nat) (lastError : option string) :
  retryFrom R respond (S remaining) attempt lastError
  = if success (respond attempt)
    then (respond attempt, [Request (Nat.min (attempt - 1) 2)])
    else
      let (final, later) :=
        retryFrom R respond remaining (S attempt) (error (respond attempt)) in
      (final,
       (Request (Nat.min (attempt - 1) 2)
        :: (if Nat.ltb attempt R then [Pause (Z.of_nat attempt * 3000)] else [])
        ++ later)%list).
Proof. reflexivity. Qed.

Lemma retryFrom_success (n : nat) :
  forall attempt remaining lastError,
    (n < remaining)%nat -> (attempt + remaining = R + 1)%nat ->
    (forall j, (attempt <= j < attempt + n)%nat -> success (respond j) = false) ->
    success (respond (attempt + n)) = true ->
    retryFrom R respond remaining attempt lastError
    = (respond (attempt + n), attemptsTrace n attempt).
Proof.
  induction n as [|n IH]; intros attempt remaining lastError Hlt Hsum Hfail Hok.
  - destruct remaining as [|remaining]; [lia|]. rewrite retryFrom_step.
    rewrite Nat.add_0_r in Hok. rewrite Hok, Nat.add_0_r. reflexivity.
  - destruct remaining as [|remaining]; [lia|]. rewrite retryFrom_step.
    rewrite (Hfail attempt) by lia.
    assert (Nat.ltb attempt R = true) as -> by (apply Nat.ltb_lt; lia).
    rewrite (IH (S attempt) remaining (error (respond attempt))).
    + replace (S attempt + n)%nat with (attempt + S n)%nat by lia. reflexivity.
    + lia.
    + lia.
    + intros j Hj. apply Hfail. lia.
    + replace (S attempt + n)%nat with (attempt + S n)%nat by lia. exact Hok.
Qed.

Lemma retryFrom_exhausted (n : nat) :
  forall attempt lastError,
    (attempt + n = R)%nat ->
    (forall j, (attempt <= j <= R)%nat -> success (respond j) = false) ->
    retryFrom R respond (S n) attempt lastError
    = (exhausted R (error (respond R)), attemptsTrace n attempt).
Proof.
  induction n as [|n IH]; intros attempt lastError Hsum Hfail.
  - assert (attempt = R) as -> by lia. rewrite retryFrom_step.
    rewrite (Hfail R) by lia. rewrite Nat.ltb_irrefl. reflexivity.
  - rewrite retryFrom_step. rewrite (Hfail attempt) by lia.
    assert (Nat.ltb attempt R = true) as -> by (apply Nat.ltb_lt; lia).
    rewrite (IH (S attempt) (error (respond attempt))); [reflexivity | lia |].
    intros j Hj. apply Hfail. lia.
Qed.

End RetryFacts.

(** X5. [scrapePageWithRetry] returns the response of the first attempt that
    succeeds.  When that is attempt [k], it has made exactly the requests of
    attempts 1 to [k], with the strategy of index min(attempt - 1, 2) each, and
    has paused attempt * 3000 ms after each failed one. *)
Theorem scrapePageWithRetry_first_success
    (R : nat) (respond : nat -> ScrapeDoService.ScrapeDoResponse) (k : nat) :
  (1 <= k <= R)%nat ->
  (forall j, (1 <= j < k)%nat -> ScrapeDoService.success (respond j) = false) ->
  ScrapeDoService.success (respond k) = true ->
  ScrapeDoService.scrapePageWithRetry R respond
  = (respond k, ScrapeDoService.attemptsTrace (k - 1) 1).
Proof.
  intros Hk Hfail Hok. unfold ScrapeDoService.scrapePageWithRetry.
  replace k with (1 + (k - 1))%nat at 1 by lia.
  apply retryFrom_success.
  - lia.
  - lia.
  - intros j Hj. apply Hfail. lia.
  - replace (1 + (k - 1))%nat with k by lia. exact Hok.
Qed.

(** X6. When every attempt fails, [scrapePageWithRetry] gives up after
    exactly [RETRY_ATTEMPTS] requests, pausing after each but the last, and
    reports the error of the last attempt. *)
Theorem scrapePageWithRetry_exhausted
    (R : nat) (respond : nat -> ScrapeDoService.ScrapeDoResponse) :
  (1 <= R)%nat ->
  (forall j, (1 <= j <= R)%nat -> ScrapeDoService.success (respond j) = false) ->
  ScrapeDoService.scrapePageWithRetry R respond
  = (ScrapeDoService.exhausted R (ScrapeDoService.error (respond R)),
     ScrapeDoService.attemptsTrace (R - 1) 1).
Proof.
  intros HR Hfail. unfold ScrapeDoService.scrapePageWithRetry.
  destruct R as [|n]; [lia|].
  replace (S n - 1)%nat with n by lia.
  apply retryFrom_exhausted; [lia | exact Hfail].
Qed.

Lemma scrapePageWithRetry_first_success_witness :
  ScrapeDoService.success (Scenario.blockedThenOk 1) = false
  /\ ScrapeDoService.success (Scenario.blockedThenOk 2) = true
  /\ ScrapeDoService.scrapePageWithRetry 2 Scenario.blockedThenOk
     = (Scenario.blockedThenOk 2,
        [ScrapeDoService.Request 0; ScrapeDoService.Pause 3000;
         ScrapeDoService.Request 1]).
Proof.
  split; [reflexivity|]. split; [reflexivity|].
  apply (scrapePageWithRetry_first_success 2 Scenario.blockedThenOk 2).
  - lia.
  - intros j Hj. assert (j = 1%nat) as -> by lia. reflexivity.
  - reflexivity.
Defined.

Lemma scrapePageWithRetry_exhausted_witness :
  ScrapeDoService.scrapePageWithRetry 2 Scenario.alwaysBlocked
  = ({| ScrapeDoService.success := false; ScrapeDoService.html := None;
        ScrapeDoService.statusCode := None;
        ScrapeDoService.error := Some "Failed after 2 attempts: API error: 403";
        ScrapeDoService.responseTime := None |},
     [ScrapeDoService.Request 0; ScrapeDoService.Pause 3000;
      ScrapeDoService.Request 1]).
Proof.
  apply (scrapePageWithRetry_exhausted 2 Scenario.alwaysBlocked).
  - lia.
  - intros j Hj. reflexivity.
Defined.

(** ** The analyser's verdicts *)
Section AnalyzerFacts.
Import Analyzer.
Import BullMQService(Status, OK, Problem, LinkAnalysisResult).

Lemma analyzePageContent_consistent (view : PageView) (targetDomain currentUrl : string)
    (xRobotsTag : option string) :
  consistent (analyzePageContent view targetDomain currentUrl xRobotsTag).
Proof.
  unfold consistent, analyzePageContent, verdictOf.
  destruct (findTargetLinks_found_iff (evaluated view) targetDomain) as [Hf Ht].
  set (la := LinkAnalyzer.findTargetLinks (evaluated view) targetDomain) in *.
  set (ix := LinkAnalyzer.checkIndexability (robotsMeta view) xRobotsTag).
  destruct (found la) eqn:Hfound; simpl.
  - assert (linkType la <> not_found) as Hne by (apply Hf; reflexivity).
    destruct (indexable ix) eqn:Hix; simpl.
    + destruct (present (canonical view)) as [c|];
        [destruct (negb (String.eqb c currentUrl))|];
        (do 3 eexists; repeat split; try reflexivity; simpl; congruence).
    + do 3 eexists. repeat split; try reflexivity; simpl; congruence.
  - assert (fullATag la = None) as Hnone.
    { destruct (fullATag la) as [tag|] eqn:Htag; [|reflexivity].
      assert (false = true) by (apply Ht; eauto). discriminate. }
    do 3 eexists. repeat split; try reflexivity; simpl; try congruence.
    rewrite Hnone. reflexivity.
Qed.

Lemma analyzePageContent_linkFound (view : PageView) (targetDomain currentUrl : string)
    (xRobotsTag : option string) :
  linkFound (analyzePageContent view targetDomain currentUrl xRobotsTag)
  = found (LinkAnalyzer.findTargetLinks (evaluated view) targetDomain).
Proof.
  destruct (findTargetLinks_found_iff (evaluated view) targetDomain) as [Hf _].
  unfold linkFound, analyzePageContent.
  destruct (verdictOf _ _ _ _ _) as [s r]. simpl.
  destruct (found (LinkAnalyzer.findTargetLinks (evaluated view) targetDomain)).
  - assert (linkType (LinkAnalyzer.findTargetLinks (evaluated view) targetDomain)
            <> not_found) as Hne by (apply Hf; reflexivity).
    destruct (linkType _); congruence.
  - destruct (linkType (LinkAnalyzer.findTargetLinks (evaluated view) targetDomain)) eqn:Hl;
      try reflexivity;
      assert (false = true) by (apply Hf; congruence); discriminate.
Qed.

(** Either the proxy analysis found nothing and says only that, or it found
    the link and its result is consistent. *)
Lemma analyzeWithScrapeDo_cases (proxy : Proxy) (url targetDomain currentUrl : string) :
  (exists err, analyzeWithScrapeDo proxy url targetDomain currentUrl
               = onlyLinkType not_found err)
  \/ (linkFound (analyzeWithScrapeDo proxy url targetDomain currentUrl) = true
      /\ consistent (analyzeWithScrapeDo proxy url targetDomain currentUrl)
      /\ p_error (analyzeWithScrapeDo proxy url targetDomain currentUrl) = None).
Proof.
  unfold analyzeWithScrapeDo.
  destruct (negb (ScrapeDoService.isAvailable (API_KEY proxy))); [left; eauto|].
  match goal with |- context [ScrapeDoService.scrapePageWithRetry ?r ?f] =>
    set (scrapeResult := fst (ScrapeDoService.scrapePageWithRetry r f)) end.
  destruct (ScrapeDoService.success scrapeResult); [|left; eauto].
  destruct (present (ScrapeDoService.html scrapeResult)) as [html|]; [|left; eauto].
  destruct (extractLinksFromHtml_found_iff (laterPasses proxy) html targetDomain) as [Hf _].
  destruct (found (ScrapeDoService.extractLinksFromHtml (laterPasses proxy) html targetDomain))
    eqn:Hfound; simpl; [|left; eauto].
  right.
  assert (linkType (ScrapeDoService.extractLinksFromHtml (laterPasses proxy) html targetDomain)
          <> not_found) as Hne by (apply Hf; reflexivity).
  unfold proxyVerdict, consistent, linkFound.
  destruct (indexable (ScrapeDoService.checkIndexabilityFromHtml html)) eqn:Hix; simpl.
  - destruct (present (ScrapeDoService.extractCanonicalUrl html)) as [c|];
      [destruct (negb (String.eqb c currentUrl))|]; simpl;
      (split; [destruct (linkType _); congruence|]); (split; [|reflexivity]);
      (do 3 eexists; repeat split; try reflexivity; simpl; congruence).
  - split; [destruct (linkType _); congruence|]. split; [|reflexivity].
    do 3 eexists. repeat split; try reflexivity; simpl; congruence.
Qed.

Lemma linkFound_only (err : option string) : linkFound (onlyLinkType not_found err) = false.
Proof. reflexivity. Qed.

Lemma linkFound_class (r : PartialResult) :
  linkFound r = true -> exists t, p_linkType r = Some t /\ t <> not_found.
Proof.
  unfold linkFound. destruct (p_linkType r) as [t|]; [|discriminate].
  destruct t; try discriminate; intros _; eexists; split; try reflexivity; discriminate.
Qed.

Lemma assign_consistent (target source : PartialResult) :
  consistent source -> linkFound source = true -> consistent (assign target source).
Proof.
  intros (s & b & t & Hs & Hb & Ht & Hok & Hnf) Hfound.
  apply linkFound_class in Hfound as (t' & Ht' & Hne).
  rewrite Ht in Ht'. inversion Ht'; subst t'.
  exists s, b, t. unfold assign, over. simpl. rewrite Hs, Hb, Ht.
  repeat split; auto; intros; intuition congruence.
Qed.

Lemma finished_consistent (r : PartialResult) (code t : Z) :
  consistent r ->
  (BullMQService.status (finished r code t) = OK ->
   BullMQService.r_linkType (finished r code t) <> not_found
   /\ BullMQService.indexable (finished r code t) = true)
  /\ (BullMQService.r_linkType (finished r code t) = not_found ->
      BullMQService.status (finished r code t) = Problem
      /\ BullMQService.r_fullATag (finished r code t) = None).
Proof.
  intros (s & b & ty & Hs & Hb & Ht & Hok & Hnf). unfold finished. simpl.
  rewrite Hs, Hb, Ht. split; [exact Hok|].
  intros Hty. destruct (Hnf Hty) as [Hp Htag]. rewrite Htag. auto.
Qed.

Lemma rescued_consistent (r : PartialResult) (code t : Z) :
  consistent r -> linkFound r = true ->
  (BullMQService.status (rescued r code t) = OK ->
   BullMQService.r_linkType (rescued r code t) <> not_found
   /\ BullMQService.indexable (rescued r code t) = true)
  /\ (BullMQService.r_linkType (rescued r code t) = not_found ->
      BullMQService.status (rescued r code t) = Problem
      /\ BullMQService.r_fullATag (rescued r code t) = None).
Proof.
  intros (s & b & ty & Hs & Hb & Ht & Hok & Hnf) Hfound.
  apply linkFound_class in Hfound as (t' & Ht' & Hne).
  rewrite Ht in Ht'. inversion Ht'; subst t'.
  unfold rescued. simpl. rewrite Hs, Hb, Ht. split.
  - intros _. split; [exact Hne|]. destruct b; reflexivity.
  - intros Hty. congruence.
Qed.

Lemma failed_consistent (code t : Z) (message : string) :
  (BullMQService.status (failed code t message) = OK ->
   BullMQService.r_linkType (failed code t message) <> not_found
   /\ BullMQService.indexable (failed code t message) = true)
  /\ (BullMQService.r_linkType (failed code t message) = not_found ->
      BullMQService.status (failed code t message) = Problem
      /\ BullMQService.r_fullATag (failed code t message) = None).
Proof. simpl. split; [discriminate | auto]. Qed.

Lemma afterException_consistent (proxy : Proxy) (url targetDomain : string) (t : Z)
    (e : BullMQService.Thrown) :
  (BullMQService.status (afterException proxy url targetDomain t e) = OK ->
   BullMQService.r_linkType (afterException proxy url targetDomain t e) <> not_found
   /\ BullMQService.indexable (afterException proxy url targetDomain t e) = true)
  /\ (BullMQService.r_linkType (afterException proxy url targetDomain t e) = not_found ->
      BullMQService.status (afterException proxy url targetDomain t e) = Problem
      /\ BullMQService.r_fullATag (afterException proxy url targetDomain t e) = None).
Proof.
  unfold afterException.
  destruct (analyzeWithScrapeDo_cases proxy url targetDomain url)
    as [[err ->] | (Hfound & Hcons & _)].
  - rewrite linkFound_only. apply failed_consistent.
  - rewrite Hfound. apply rescued_consistent; assumption.
Qed.

End AnalyzerFacts.

(** X7. Whatever the browser and the proxy do, the verdict of [analyzeLink]
    is coherent: a verdict with status OK has a link class other than
    [not_found] and is indexable, and a verdict whose class is [not_found] has
    status Problem and carries no tag. *)
Theorem analyzeLink_verdict_coherent
    (browser : Analyzer.Browser) (proxy : Analyzer.Proxy)
    (url targetDomain : string) (loadTime : Z) :
  let v := Analyzer.analyzeLink browser proxy url targetDomain loadTime in
  (BullMQService.status v = BullMQService.OK ->
   BullMQService.r_linkType v <> not_found /\ BullMQService.indexable v = true)
  /\ (BullMQService.r_linkType v = not_found ->
      BullMQService.status v = BullMQService.Problem
      /\ BullMQService.r_fullATag v = None).
Proof.
  cbv zeta. unfold Analyzer.analyzeLink.
  destruct (Analyzer.navigation browser) as [e | response finalUrl seen].
  - apply afterException_consistent.
  - set (code := match response with Some r => Analyzer.r_status r | None => 0%Z end).
    set (x := match response with
              | Some r => Analyzer.over (present (Analyzer.r_xRobotsTag r)) seen
              | None => seen
              end).
    destruct (match response with None => true | Some _ => (400 <=? code)%Z end).
    + destruct (code =? 403)%Z; [|apply failed_consistent].
      destruct (analyzeWithScrapeDo_cases proxy url targetDomain url)
        as [[err ->] | (Hfound & Hcons & _)].
      * rewrite linkFound_only. apply failed_consistent.
      * rewrite Hfound. apply rescued_consistent; assumption.
    + pose proof (analyzePageContent_consistent (Analyzer.firstView browser)
                    targetDomain finalUrl x) as Hfirst.
      destruct (Analyzer.linkFound
                  (Analyzer.analyzePageContent (Analyzer.firstView browser)
                     targetDomain finalUrl x));
        [apply finished_consistent; exact Hfirst|].
      destruct (Analyzer.reload browser) as [e|]; [apply afterException_consistent|].
      pose proof (analyzePageContent_consistent (Analyzer.secondView browser)
                    targetDomain finalUrl x) as Hsecond.
      destruct (Analyzer.linkFound
                  (Analyzer.analyzePageContent (Analyzer.secondView browser)
                     targetDomain finalUrl x)) eqn:Hretry.
      * apply finished_consistent. apply assign_consistent; assumption.
      * destruct (analyzeWithScrapeDo_cases proxy url targetDomain finalUrl)
          as [[err ->] | (Hfound & Hcons & _)].
        -- rewrite linkFound_only. apply finished_consistent. exact Hfirst.
        -- rewrite Hfound. apply finished_consistent.
           apply assign_consistent; assumption.
Qed.

Lemma analyzeLink_verdict_coherent_witness :
  BullMQService.status
    (Analyzer.analyzeLink Scenario.goodBrowser Scenario.recoveringProxy
       Scenario.pageUrl "target.com" 4200) = BullMQService.OK
  /\ BullMQService.r_linkType
       (Analyzer.analyzeLink Scenario.goodBrowser Scenario.recoveringProxy
          Scenario.pageUrl "target.com" 4200) <> not_found
  /\ BullMQService.indexable
       (Analyzer.analyzeLink Scenario.goodBrowser Scenario.recoveringProxy
          Scenario.pageUrl "target.com" 4200) = true.
Proof.
  assert (BullMQService.status
            (Analyzer.analyzeLink Scenario.goodBrowser Scenario.recoveringProxy
               Scenario.pageUrl "target.com" 4200) = BullMQService.OK) as Hok
    by (vm_compute; reflexivity).
  split; [exact Hok|].
  apply (analyzeLink_verdict_coherent Scenario.goodBrowser Scenario.recoveringProxy
           Scenario.pageUrl "target.com" 4200).
  exact Hok.
Defined.

Lemma analyzeWithScrapeDo_shape
    (proxy : Analyzer.Proxy) (url targetDomain currentUrl : string) :
  let r := Analyzer.analyzeWithScrapeDo proxy url targetDomain currentUrl in
  (exists err, r = Analyzer.onlyLinkType not_found err)
  \/ (Analyzer.linkFound r = true
      /\ Analyzer.p_error r = None
      /\ exists s b,
          Analyzer.p_status r = Some s /\ Analyzer.p_indexable r = Some b
          /\ (s = BullMQService.Problem <-> b = false)).
Proof.
  cbv zeta. unfold Analyzer.analyzeWithScrapeDo.
  destruct (negb (ScrapeDoService.isAvailable (Analyzer.API_KEY proxy))); [left; eauto|].
  match goal with |- context [ScrapeDoService.scrapePageWithRetry ?r ?f] =>
    set (scrapeResult := fst (ScrapeDoService.scrapePageWithRetry r f)) end.
  destruct (ScrapeDoService.success scrapeResult); [|left; eauto].
  destruct (present (ScrapeDoService.html scrapeResult)) as [html|]; [|left; eauto].
  destruct (extractLinksFromHtml_found_iff (Analyzer.laterPasses proxy) html targetDomain)
    as [Hf _].
  destruct (found (ScrapeDoService.extractLinksFromHtml
                     (Analyzer.laterPasses proxy) html targetDomain))
    eqn:Hfound; simpl; [|left; eauto].
  right.
  assert (linkType (ScrapeDoService.extractLinksFromHtml
                      (Analyzer.laterPasses proxy) html targetDomain)
          <> not_found) as Hne by (apply Hf; reflexivity).
  unfold Analyzer.proxyVerdict, Analyzer.linkFound.
  destruct (indexable (ScrapeDoService.checkIndexabilityFromHtml html)) eqn:Hix; simpl.
  - destruct (present (ScrapeDoService.extractCanonicalUrl html)) as [c|];
      [destruct (negb (String.eqb c currentUrl))|]; simpl;
      (split; [destruct (linkType _); congruence|]); (split; [reflexivity|]);
      (do 2 eexists; repeat split; try reflexivity; congruence).
  - split; [destruct (linkType _); congruence|]. split; [reflexivity|].
    do 2 eexists. repeat split; reflexivity.
Qed.

(** X8. The proxy analysis is all or nothing.  Either it reports the class
    [not_found] and nothing else but, possibly, an error; or it reports a
    found link with a status and an indexability flag and no error, the
    status being Problem exactly when the proxied page is not indexable. *)
Theorem analyzeWithScrapeDo_all_or_nothing
    (proxy : Analyzer.Proxy) (url targetDomain currentUrl : string) :
  let r := Analyzer.analyzeWithScrapeDo proxy url targetDomain currentUrl in
  (exists err, r = Analyzer.onlyLinkType not_found err)
  \/ (Analyzer.linkFound r = true
      /\ Analyzer.p_error r = None
      /\ exists s b,
          Analyzer.p_status r = Some s /\ Analyzer.p_indexable r = Some b
          /\ (s = BullMQService.Problem <-> b = false)).
Proof. apply analyzeWithScrapeDo_shape. Qed.

(** X9. When the page loaded and nothing throws during the reload, the
    response code of the verdict is the status of the main response (0 when
    there is none), whichever of the fallbacks produced the rest of the
    verdict. *)
Theorem analyzeLink_keeps_response_code
    (browser : Analyzer.Browser) (proxy : Analyzer.Proxy)
    (url targetDomain : string) (loadTime : Z)
    (response : option Analyzer.Response) (finalUrl : string)
    (seenXRobots : option string) :
  Analyzer.navigation browser = Analyzer.NavLoaded response finalUrl seenXRobots ->
  Analyzer.reload browser = None ->
  BullMQService.responseCode
    (Analyzer.analyzeLink browser proxy url targetDomain loadTime)
  = match response with Some r => Analyzer.r_status r | None => 0%Z end.
Proof.
  intros Hnav Hreload. unfold Analyzer.analyzeLink. rewrite Hnav, Hreload.
  repeat match goal with
         | |- context [if ?c then _ else _] => destruct c
         end; reflexivity.
Qed.

Lemma analyzeLink_keeps_response_code_witness :
  BullMQService.responseCode
    (Analyzer.analyzeLink
       {| Analyzer.navigation := Scenario.loaded 403;
          Analyzer.firstView := Scenario.emptyView;
          Analyzer.reload := None;
          Analyzer.secondView := Scenario.emptyView |}
       Scenario.recoveringProxy Scenario.pageUrl "target.com" 4200)
  = 403%Z.
Proof.
  apply (analyzeLink_keeps_response_code
           {| Analyzer.navigation := Scenario.loaded 403;
              Analyzer.firstView := Scenario.emptyView;
              Analyzer.reload := None;
              Analyzer.secondView := Scenario.emptyView |}
           Scenario.recoveringProxy Scenario.pageUrl "target.com" 4200
           (Some {| Analyzer.r_status := 403; Analyzer.r_xRobotsTag := None |})
           Scenario.pageUrl None); reflexivity.
Defined.

(** X10. The fallbacks are left alone when they are not needed: after an
    HTTP error other than 403, or when the first look at a page that loaded
    without HTTP error finds the link, the verdict is the same whatever the
    reload, the second look and the proxy would give. *)
Theorem analyzeLink_ignores_unneeded_fallbacks
    (browser browser' : Analyzer.Browser) (proxy proxy' : Analyzer.Proxy)
    (url targetDomain : string) (loadTime : Z)
    (r : Analyzer.Response) (finalUrl : string) (seenXRobots : option string) :
  Analyzer.navigation browser = Analyzer.NavLoaded (Some r) finalUrl seenXRobots ->
  ((400 <= Analyzer.r_status r)%Z /\ Analyzer.r_status r <> 403%Z)
  \/ ((Analyzer.r_status r < 400)%Z
      /\ found (LinkAnalyzer.findTargetLinks
                  (Analyzer.evaluated (Analyzer.firstView browser)) targetDomain)
         = true) ->
  Analyzer.navigation browser' = Analyzer.navigation browser ->
  Analyzer.firstView browser' = Analyzer.firstView browser ->
  Analyzer.analyzeLink browser' proxy' url targetDomain loadTime
  = Analyzer.analyzeLink browser proxy url targetDomain loadTime.
Proof.
  intros Hnav Hcase Hnav' Hview'. unfold Analyzer.analyzeLink.
  rewrite Hnav', Hview', Hnav.
  destruct Hcase as [[Hge Hne] | [Hlt Hfound]].
  - assert ((400 <=? Analyzer.r_status r)%Z = true) as -> by (apply Z.leb_le; lia).
    assert ((Analyzer.r_status r =? 403)%Z = false) as -> by (apply Z.eqb_neq; lia).
    reflexivity.
  - assert ((400 <=? Analyzer.r_status r)%Z = false) as -> by (apply Z.leb_gt; lia).
    rewrite analyzePageContent_linkFound, Hfound. reflexivity.
Qed.

Lemma analyzeLink_ignores_unneeded_fallbacks_witness :
  found (LinkAnalyzer.findTargetLinks
           (Analyzer.evaluated (Analyzer.firstView Scenario.goodBrowser)) "target.com")
  = true
  /\ Analyzer.analyzeLink
       {| Analyzer.navigation := Scenario.loaded 200;
          Analyzer.firstView := Scenario.plainView;
          Analyzer.reload := Some BullMQService.OtherValue;
          Analyzer.secondView := Scenario.emptyView |}
       {| Analyzer.API_KEY := EmptyString; Analyzer.RETRY_ATTEMPTS := 0;
          Analyzer.outcome := fun _ => ScrapeDoService.Aborted;
          Analyzer.elapsed := fun _ => 0%Z;
          Analyzer.laterPasses := fun _ _ => None |}
       Scenario.pageUrl "target.com" 4200
     = Analyzer.analyzeLink Scenario.goodBrowser Scenario.recoveringProxy
         Scenario.pageUrl "target.com" 4200.
Proof.
  assert (found (LinkAnalyzer.findTargetLinks
                   (Analyzer.evaluated (Analyzer.firstView Scenario.goodBrowser))
                   "target.com") = true) as Hfound by (vm_compute; reflexivity).
  split; [exact Hfound|].
  apply (analyzeLink_ignores_unneeded_fallbacks Scenario.goodBrowser _
           Scenario.recoveringProxy _ Scenario.pageUrl "target.com" 4200
           {| Analyzer.r_status := 200; Analyzer.r_xRobotsTag := None |}
           Scenario.pageUrl None).
  - reflexivity.
  - right. split; [reflexivity | exact Hfound].
  - reflexivity.
  - reflexivity.
Defined.

(** ** The Redis queue: names, restart, hand-off, completion, statistics *)

(** X11. The priority of a plan names the plan again: [getPriorityName]
    after [getUserPriority] gives back enterprise, pro and starter, and gives
    free for every other plan; it never gives unknown. *)
Theorem priority_name_of_plan (plan : string) :
  QueueService.getPriorityName (QueueService.getUserPriority plan)
  = if String.eqb plan "enterprise" || String.eqb plan "pro" || String.eqb plan "starter"
    then plan else "free".
Proof.
  unfold QueueService.getUserPriority.
  destruct (String.eqb plan "enterprise") eqn:He;
    [apply String.eqb_eq in He; subst; reflexivity|].
  destruct (String.eqb plan "pro") eqn:Hp;
    [apply String.eqb_eq in Hp; subst; reflexivity|].
  destruct (String.eqb plan "starter") eqn:Hs;
    [apply String.eqb_eq in Hs; subst; reflexivity|].
  reflexivity.
Qed.

Section MemberFacts.
Context {M : Type} `{EqDecision M}.

Lemma members_without (y m : M) (q : Redis.zset) :
  In y (map snd (Redis.without m q)) <-> In y (map snd q) /\ y <> m.
Proof.
  rewrite !in_map_iff. split.
  - intros (e & He & Hin). apply in_without in Hin as [Hin Hne].
    subst y. split; eauto.
  - intros [(e & He & Hin) Hne]. exists e. split; [exact He|].
    apply in_without. split; [exact Hin | congruence].
Qed.

Lemma members_zAdd (y m : M) (s : Z) (q : Redis.zset) :
  In y (map snd (Redis.zAdd s m q)) <-> y = m \/ In y (map snd q).
Proof.
  unfold Redis.zAdd. simpl. rewrite members_without.
  destruct (decide (y = m)) as [-> | Hne]; intuition congruence.
Qed.

End MemberFacts.

Section RankFacts.
Context {M : Type} `{EqDecision M}.
Variable memberLt : M -> M -> bool.

Lemma insertRanked_in (e x : Z * M) (l : list (Z * M)) :
  In x (Redis.insertRanked memberLt e l) <-> x = e \/ In x l.
Proof.
  induction l as [|y l IH]; simpl.
  - intuition congruence.
  - destruct (Redis.above memberLt y e); simpl; [intuition congruence|].
    rewrite IH. intuition congruence.
Qed.


Lemma ranked_in (x : Z * M) (q : Redis.zset) :
  In x (fold_right (Redis.insertRanked memberLt) [] q) <-> In x q.
Proof.
  induction q as [|e q IH]; simpl; [tauto|].
  rewrite insertRanked_in, IH. intuition congruence.
Qed.

(** [zRange] lists the members of the set, each entry once. *)
Lemma zRange_in (y : M) (q : Redis.zset) :
  In y (Redis.zRange memberLt q) <-> In y (map snd q).
Proof.
  unfold Redis.zRange. rewrite !in_map_iff.
  split; intros (e & He & Hin); exists e; (split; [exact He|]); apply ranked_in; exact Hin.
Qed.


End RankFacts.

Lemma restore_members (l : list QueueService.QueueItem) :
  forall (q : Redis.zset) (x : QueueService.QueueItem),
    In x (map snd (fold_left
                     (fun q queueItem =>
                        Redis.zAdd (QueueService.calculateScore
                                      (QueueService.priority queueItem)
                                      (QueueService.createdAt queueItem))
                                   queueItem q) l q))
    <-> In x (map snd q) \/ In x l.
Proof.
  induction l as [|m l IH]; intros q x.
  - simpl. tauto.
  - cbn [fold_left]. rewrite IH, members_zAdd. simpl. intuition congruence.
Qed.

(** X12. A restart loses no job: after [clearProcessingQueue] the processing
    list is empty, and the waiting items are exactly those that were waiting
    or being processed. *)
Theorem restart_requeues_processing (st : QueueService.State) (x : QueueService.QueueItem) :
  QueueService.processing (QueueService.clearProcessingQueue st) = []
  /\ (QueueService.waiting x (QueueService.clearProcessingQueue st)
      <-> QueueService.waiting x st \/ In x (QueueService.processing st)).
Proof.
  split; [reflexivity|].
  unfold QueueService.waiting, QueueService.clearProcessingQueue. simpl.
  apply restore_members.
Qed.





Lemma filter_none {A : Type} (f : A -> bool) (l : list A) :
  Nat.eqb (length (List.filter f l)) 0 = true <-> forall x, In x l -> f x = false.
Proof.
  induction l as [|a l IH]; simpl.
  - split; [intros _ x [] | reflexivity].
  - destruct (f a) eqn:Hfa; simpl.
    + split; [discriminate|]. intros Hall. specialize (Hall a (or_introl eq_refl)). congruence.
    + rewrite IH. split.
      * intros Hall x [<- | Hx]; auto.
      * intros Hall x Hx. apply Hall. right. exact Hx.
Qed.

(** X14. Completion is never announced early: when
    [checkProjectAnalysisCompletion] emits an event, no item of the project
    and type is waiting or being processed and no link row of it is pending
    or checking; the event is the single completion event of the type, with
    the number of rows as total. *)
Theorem completion_not_announced_early
    (memberLt : QueueService.QueueItem -> QueueService.QueueItem -> bool)
    (rows : string -> QueueService.JobType -> list QueueWorker.RowStatus)
    (p : string) (t : QueueService.JobType) (st : QueueService.State) :
  QueueWorker.checkProjectAnalysisCompletion memberLt rows p t st <> [] ->
  (forall x, QueueService.waiting x st -> QueueWorker.ofProject p t x = false)
  /\ (forall x, In x (QueueService.processing st) -> QueueWorker.ofProject p t x = false)
  /\ (forall s, In s (rows p t) -> QueueWorker.unprocessed s = false)
  /\ QueueWorker.checkProjectAnalysisCompletion memberLt rows p t st
     = [match t with
        | QueueService.manual => QueueWorker.analysis_completed p (length (rows p t))
        | QueueService.google_sheets =>
            QueueWorker.sheets_analysis_completed p (length (rows p t))
        end].
Proof.
  unfold QueueWorker.checkProjectAnalysisCompletion.
  destruct (Nat.eqb (length (List.filter (QueueWorker.ofProject p t)
                               (Redis.zRange memberLt (QueueService.priorityQueue st)))) 0)
    eqn:Hq; simpl; [|congruence].
  destruct (Nat.eqb (length (List.filter (QueueWorker.ofProject p t)
                               (QueueService.processing st))) 0)
    eqn:Hp; simpl; [|congruence].
  destruct (Nat.eqb (length (List.filter QueueWorker.unprocessed (rows p t))) 0)
    eqn:Hr; [|congruence].
  intros _.
  pose proof (proj1 (filter_none _ _) Hq) as Hq'.
  pose proof (proj1 (filter_none _ _) Hp) as Hp'.
  pose proof (proj1 (filter_none _ _) Hr) as Hr'.
  split; [|split; [exact Hp' | split; [exact Hr'|]]].
  - intros x Hx. apply Hq'. apply zRange_in. exact Hx.
  - destruct t; reflexivity.
Qed.

Lemma completion_not_announced_early_witness :
  QueueWorker.checkProjectAnalysisCompletion Scenario.anyOrder Scenario.noRows
    "p1" QueueService.manual QueueService.empty
  = [QueueWorker.analysis_completed "p1" 0]
  /\ QueueWorker.checkProjectAnalysisCompletion Scenario.anyOrder Scenario.noRows
       "p1" QueueService.manual Scenario.threeWaiting
     = [].
Proof.
  split; [|vm_compute; reflexivity].
  apply (completion_not_announced_early Scenario.anyOrder Scenario.noRows
           "p1" QueueService.manual QueueService.empty).
  vm_compute. discriminate.
Defined.

Section StatsFacts.
Import QueueWorker.




End StatsFacts.


(** X16. What [saveResult] does to the result history.  When it sends a row
    update and the update throws, the history is left as it was.  In every
    other case the result is recorded first and the history is cut to its
    1000 newest entries: it is the result followed by the 999 newest of the
    entries before.  So a history of at most 1000 results still has at most
    1000 afterwards. *)
Theorem saveResult_history
    (updateThrows : bool) (result : QueueWorker.AnalysisResult)
    (history : list QueueWorker.AnalysisResult) :
  (length history <= 1000)%nat ->
  (length (snd (QueueWorker.saveResult updateThrows result history)) <= 1000)%nat
  /\ (fst (QueueWorker.saveResult updateThrows result history) <> None ->
      updateThrows = true ->
      snd (QueueWorker.saveResult updateThrows result history) = history)
  /\ (fst (QueueWorker.saveResult updateThrows result history) = None
      \/ updateThrows = false ->
      snd (QueueWorker.saveResult updateThrows result history)
      = result :: firstn 999 history).
Proof.
  intros Hlen. unfold QueueWorker.saveResult, QueueWorker.lTrim.
  destruct (QueueWorker.a_type result);
    [destruct (present (QueueWorker.a_linkId result)); [destruct updateThrows|]|];
    cbn [fst snd].
  - split; [exact Hlen|]. split; [reflexivity|]. intros [H | H]; discriminate.
  - split; [apply firstn_le_length|]. split; [discriminate | reflexivity].
  - split; [apply firstn_le_length|]. split; [congruence | reflexivity].
  - split; [apply firstn_le_length|]. split; [congruence | reflexivity].
Qed.

Lemma saveResult_history_witness :
  (length (snd (QueueWorker.saveResult false
                  (QueueWorker.analyzeLink Scenario.findsNothing 1700000009000
                     Scenario.freeItem) [])) <= 1000)%nat
  /\ snd (QueueWorker.saveResult false
            (QueueWorker.analyzeLink Scenario.findsNothing 1700000009000
               Scenario.freeItem) [])
     = [QueueWorker.analyzeLink Scenario.findsNothing 1700000009000 Scenario.freeItem].
Proof.
  assert (length (@nil QueueWorker.AnalysisResult) <= 1000)%nat as Hlen by (simpl; lia).
  destruct (saveResult_history false
              (QueueWorker.analyzeLink Scenario.findsNothing 1700000009000 Scenario.freeItem)
              [] Hlen) as (Hbound & _ & Hrec).
  split; [exact Hbound|].
  apply Hrec. right. reflexivity.
Defined.

(** X17. For a manual item with a link id, the row is saved with status OK
    whenever the analyser returns a verdict, whatever the status of the
    verdict; the event [link_updated] carries the verdict's own status.  The
    row gets status Problem only when the analyser throws. *)
Theorem saved_status_follows_success
    (memberLt : QueueService.QueueItem -> QueueService.QueueItem -> bool)
    (rows : string -> QueueService.JobType -> list QueueWorker.RowStatus)
    (analyze : string -> string -> BullMQService.Thrown + BullMQService.LinkAnalysisResult)
    (clock : Z) (queueItem : QueueService.QueueItem) (l : string)
    (updateThrows : bool) (history : list QueueWorker.AnalysisResult)
    (st : QueueService.State) :
  QueueService.type queueItem = QueueService.manual ->
  present (QueueService.linkId queueItem) = Some l ->
  let result := QueueWorker.analyzeLink analyze clock queueItem in
  (exists u,
      fst (QueueWorker.saveResult updateThrows result history) = Some u
      /\ QueueWorker.u_linkId u = l
      /\ QueueWorker.u_status u
         = match analyze (QueueService.url queueItem) (QueueService.targetDomain queueItem) with
           | inr _ => BullMQService.OK
           | inl _ => BullMQService.Problem
           end)
  /\ hd_error (QueueWorker.sendRealTimeUpdate memberLt rows result st)
     = Some (QueueWorker.link_updated
               (QueueService.projectId queueItem) (QueueService.linkId queueItem)
               (Some match analyze (QueueService.url queueItem)
                                   (QueueService.targetDomain queueItem) with
                     | inr v => BullMQService.status v
                     | inl _ => BullMQService.Problem
                     end)
               match analyze (QueueService.url queueItem)
                             (QueueService.targetDomain queueItem) with
               | inr v => Some (BullMQService.r_linkType v)
               | inl _ => None
               end).
Proof.
  intros Hty Hl. cbv zeta.
  unfold QueueWorker.analyzeLink, QueueWorker.saveResult, QueueWorker.sendRealTimeUpdate.
  rewrite Hty.
  destruct (analyze (QueueService.url queueItem) (QueueService.targetDomain queueItem))
    as [e | v]; simpl; rewrite ?Hty, ?Hl; simpl.
  - split; [|reflexivity]. destruct updateThrows; eexists; repeat split; reflexivity.
  - split; [|reflexivity]. destruct updateThrows; eexists; repeat split; reflexivity.
Qed.

Lemma saved_status_follows_success_witness :
  BullMQService.status Scenario.missingVerdict = BullMQService.Problem
  /\ (exists u,
         fst (QueueWorker.saveResult false
                (QueueWorker.analyzeLink Scenario.findsNothing 1700000009000
                   Scenario.freeItem) []) = Some u
         /\ QueueWorker.u_linkId u = "l1"
         /\ QueueWorker.u_status u = BullMQService.OK).
Proof.
  split; [reflexivity|].
  destruct (saved_status_follows_success Scenario.anyOrder Scenario.noRows
              Scenario.findsNothing 1700000009000 Scenario.freeItem "l1" false []
              QueueService.empty eq_refl eq_refl) as [Hrow _].
  exact Hrow.
Defined.

(** ** The BullMQ queue: events and the enqueue loop *)

(** X18. What a failed job tells its project: for a manual job with a link
    id, one [link_updated] event with status Problem and class [not_found];
    for any other job no link event at all.  Either is followed by the
    completion event when the project is done.  The link id of the job data,
    when there is one, is not empty, as in every job that
    [addLinkAnalysisJob] builds. *)
Theorem failed_job_events
    (env : BullMQService.Env) (job : BullMQService.Job) (e : BullMQService.Thrown) :
  present (BullMQService.linkId (BullMQ.data job)) = BullMQService.linkId (BullMQ.data job) ->
  BullMQService.processingFails env (BullMQ.data job) e ->
  snd (BullMQService.processLinkAnalysisJob env job)
  = (match BullMQService.type (BullMQ.data job), BullMQService.linkId (BullMQ.data job) with
     | QueueService.manual, Some l =>
         [BullMQService.link_updated (BullMQService.projectId (BullMQ.data job)) l
            BullMQService.Problem not_found]
     | _, _ => []
     end
     ++ (if BullMQService.projectDone env (BullMQService.projectId (BullMQ.data job))
              (BullMQService.type (BullMQ.data job))
         then [BullMQService.analysis_completed
                 (BullMQService.projectId (BullMQ.data job))
                 (BullMQService.type (BullMQ.data job))]
         else []))%list.
Proof.
  unfold BullMQService.processingFails, BullMQService.processLinkAnalysisJob,
    BullMQService.failure, BullMQService.sendRealTimeUpdate.
  intros _ [Ha | (r & l & Ha & Ht & Hl & Hu)]; rewrite Ha; [reflexivity|].
  rewrite Ht, Hl, Hu. reflexivity.
Qed.

Lemma failed_job_events_witness :
  snd (BullMQService.processLinkAnalysisJob Scenario.databaseDown Scenario.firstAttempt)
  = [BullMQService.link_updated "project-a" "link-1" BullMQService.Problem not_found].
Proof.
  apply (failed_job_events Scenario.databaseDown Scenario.firstAttempt
           (BullMQService.ErrorObject "Connection terminated unexpectedly"));
    [reflexivity|].
  right. exists Scenario.verdict, "link-1". repeat split; reflexivity.
Defined.

Section EnqueueFacts.
Import BullMQService ManualLinksController.

(** On an initialised queue a call ends by a return exactly when both calls
    into the queue return; in every case the job handed to [Queue.add] is the
    one [jobData] builds. *)
Lemma addLinkAnalysisJob_cases (calls : Calls) (type : QueueService.JobType)
    (userId projectId url targetDomain : string) (linkId sheetId : option string)
    (q : Store) :
  let d := jobData type userId projectId url targetDomain linkId sheetId in
  match calls with
  | BothReturn =>
      exists q', addLinkAnalysisJob calls type userId projectId url targetDomain
                   linkId sheetId (Some q) = Returned d q'
  | _ =>
      exists q', addLinkAnalysisJob calls type userId projectId url targetDomain
                   linkId sheetId (Some q) = Rethrown d q'
  end.
Proof.
  intros d. unfold addLinkAnalysisJob. fold d.
  destruct calls; cbn [storageAtAdd].
  - destruct (BullMQ.add BullMQ.Reachable d (jobOptions d) q) as [q'|] eqn:Hadd; eauto.
    unfold BullMQ.add in Hadd.
    repeat match type of Hadd with
           | context [match ?x with _ => _ end] => destruct x
           end; discriminate.
  - simpl. eauto.
  - destruct (BullMQ.add BullMQ.Reachable d (jobOptions d) q) as [q'|] eqn:Hadd; eauto.
Qed.

(** The loop when its first [n] iterations return and the next one, if
    there is one, throws. *)
Lemma enqueueLinks_trace (calls : nat -> Calls) (projectId userId : string)
    (links : list Link) :
  forall (n index : nat) (q : Store),
    (n <= length links)%nat ->
    (forall i, (i < n)%nat -> calls (index + i)%nat = BothReturn) ->
    ((n < length links)%nat -> calls (index + n)%nat <> BothReturn) ->
    threw (enqueueLinks calls index projectId userId links (Some q))
    = Nat.ltb n (length links)
    /\ handed (enqueueLinks calls index projectId userId links (Some q))
       = map (fun link =>
                jobData QueueService.manual userId projectId (l_url link)
                  (l_target_domain link) (Some (l_id link)) None)
             (firstn (S n) links).
Proof.
  induction links as [|link rest IH]; intros n index q Hn Hok Hfail.
  - simpl in Hn. assert (n = 0)%nat as -> by lia. simpl. split; reflexivity.
  - cbn [enqueueLinks].
    pose proof (addLinkAnalysisJob_cases (calls index) QueueService.manual userId
                  projectId (l_url link) (l_target_domain link) (Some (l_id link))
                  None q) as Hcase.
    cbv zeta in Hcase.
    destruct n as [|n].
    + assert (calls index <> BothReturn) as Hbad.
      { replace index with (index + 0)%nat by lia. apply Hfail. simpl. lia. }
      destruct (calls index); [congruence| |];
        destruct Hcase as [q' ->]; simpl; split; reflexivity.
    + assert (calls index = BothReturn) as Hgood.
      { replace index with (index + 0)%nat by lia. apply Hok. lia. }
      rewrite Hgood in Hcase |- *. destruct Hcase as [q' ->].
      cbn [threw handed].
      destruct (IH n (S index) q') as [Hthrew Hhanded].
      * simpl in Hn. lia.
      * intros i Hi. replace (S index + i)%nat with (index + S i)%nat by lia.
        apply Hok. lia.
      * intros Hlt. replace (S index + n)%nat with (index + S n)%nat by lia.
        apply Hfail. simpl. lia.
      * rewrite Hthrew, Hhanded. split; reflexivity.
Qed.

End EnqueueFacts.

(** X19. What [startLinkAnalysis] does on an initialised queue when the
    status reset does not throw.  It announces the start with the number of
    all links.  It hands one job to [Queue.add] per link, in the order of the
    links, each built from the row ([manual:<url>] as id, the row's id as link
    id), up to and including the first link at which a call into the queue
    throws; the links after that one are never enqueued.  It emits
    [analysis_error] after the start exactly when a call threw, and no other
    event. *)
Theorem startLinkAnalysis_enqueues_until_throw
    (calls : nat -> BullMQService.Calls) (projectId userId : string)
    (links : list ManualLinksController.Link) (q : BullMQService.Store) (n : nat) :
  (n <= length links)%nat ->
  (forall i, (i < n)%nat -> calls i = BullMQService.BothReturn) ->
  ((n < length links)%nat -> calls n <> BullMQService.BothReturn) ->
  ManualLinksController.emitted
    (ManualLinksController.startLinkAnalysis false calls projectId links userId (Some q))
  = ManualLinksController.analysis_started projectId (length links)
    :: (if Nat.ltb n (length links)
        then [ManualLinksController.analysis_error projectId] else [])
  /\ ManualLinksController.enqueued
       (ManualLinksController.startLinkAnalysis false calls projectId links userId (Some q))
     = map (fun link =>
              BullMQService.jobData QueueService.manual userId projectId
                (ManualLinksController.l_url link)
                (ManualLinksController.l_target_domain link)
                (Some (ManualLinksController.l_id link)) None)
           (firstn (S n) links).
Proof.
  intros Hn Hok Hfail.
  destruct (enqueueLinks_trace calls projectId userId links n 0 q Hn Hok Hfail)
    as [Hthrew Hhanded].
  unfold ManualLinksController.startLinkAnalysis.
  cbn [ManualLinksController.emitted ManualLinksController.enqueued].
  rewrite Hthrew, Hhanded. split; reflexivity.
Qed.

Lemma startLinkAnalysis_enqueues_until_throw_witness :
  ManualLinksController.emitted
    (ManualLinksController.startLinkAnalysis false Scenario.lostAtSecond "project-a"
       Scenario.threeRows "user-1" (Some BullMQ.emptyStore))
  = [ManualLinksController.analysis_started "project-a" 3;
     ManualLinksController.analysis_error "project-a"]
  /\ map BullMQService.id
       (ManualLinksController.enqueued
          (ManualLinksController.startLinkAnalysis false Scenario.lostAtSecond "project-a"
             Scenario.threeRows "user-1" (Some BullMQ.emptyStore)))
     = ["manual:https://blog.example/post"; "manual:https://news.example/item"].
Proof.
  assert (1 <= length Scenario.threeRows)%nat as Hn by (simpl; lia).
  assert (forall i, (i < 1)%nat -> Scenario.lostAtSecond i = BullMQService.BothReturn) as Hok.
  { intros i Hi. assert (i = 0)%nat as -> by lia. reflexivity. }
  assert ((1 < length Scenario.threeRows)%nat
          -> Scenario.lostAtSecond 1 <> BullMQService.BothReturn) as Hfail.
  { intros _. discriminate. }
  destruct (startLinkAnalysis_enqueues_until_throw Scenario.lostAtSecond "project-a"
              "user-1" Scenario.threeRows BullMQ.emptyStore 1 Hn Hok Hfail)
    as [Hev Henq].
  split.
  - rewrite Hev. reflexivity.
  - rewrite Henq. reflexivity.
Defined.

(** ** Imported files *)
Section TrimFacts.

Lemma trimStart_head (s : string) :
  match JS.trimStart s with
  | String c _ => JS.isWhiteSpace c = false
  | EmptyString => True
  end.
Proof.
  induction s as [|c s IH]; simpl; [exact I|].
  destruct (JS.isWhiteSpace c) eqn:Hc; [exact IH | exact Hc].
Qed.

Lemma trimStart_id (t : string) :
  match t with
  | String c _ => JS.isWhiteSpace c = false
  | EmptyString => True
  end -> JS.trimStart t = t.
Proof. destruct t as [|c t]; simpl; [reflexivity|]. intros ->. reflexivity. Qed.

Lemma trimEnd_head (t : string) :
  match t with
  | String c _ => JS.isWhiteSpace c = false
  | EmptyString => True
  end ->
  match JS.trimEnd t with
  | String c _ => JS.isWhiteSpace c = false
  | EmptyString => True
  end.
Proof.
  destruct t as [|c t]; simpl; [auto|]. intros Hc.
  destruct (JS.trimEnd t); [rewrite Hc|]; exact Hc.
Qed.

Lemma trimEnd_idem (t : string) : JS.trimEnd (JS.trimEnd t) = JS.trimEnd t.
Proof.
  induction t as [|c t IH]; simpl; [reflexivity|].
  destruct (JS.trimEnd t) as [|d u] eqn:Hu.
  - destruct (JS.isWhiteSpace c) eqn:Hc; simpl; [reflexivity|]. rewrite Hc. reflexivity.
  - cbn [JS.trimEnd]. cbn [JS.trimEnd] in IH. rewrite IH. reflexivity.
Qed.

(** Trimming twice is trimming once. *)
Lemma trim_idem (s : string) : JS.trim (JS.trim s) = JS.trim s.
Proof.
  unfold JS.trim.
  rewrite (trimStart_id (JS.trimEnd (JS.trimStart s))).
  - apply trimEnd_idem.
  - apply trimEnd_head. apply trimStart_head.
Qed.

Lemma trimStart_chars (c : ascii) (s : string) :
  In c (list_ascii_of_string (JS.trimStart s)) -> In c (list_ascii_of_string s).
Proof.
  induction s as [|d s IH]; simpl; [auto|].
  destruct (JS.isWhiteSpace d); simpl; auto.
Qed.

Lemma trimEnd_chars (c : ascii) (s : string) :
  In c (list_ascii_of_string (JS.trimEnd s)) -> In c (list_ascii_of_string s).
Proof.
  induction s as [|d s IH]; simpl; [auto|].
  destruct (JS.trimEnd s) as [|e u].
  - destruct (JS.isWhiteSpace d); simpl; tauto.
  - simpl. simpl in IH. tauto.
Qed.

Lemma trim_chars (c : ascii) (s : string) :
  In c (list_ascii_of_string (JS.trim s)) -> In c (list_ascii_of_string s).
Proof. unfold JS.trim. intros H. apply trimStart_chars, trimEnd_chars, H. Qed.

(** No piece of a split contains the separator. *)
Lemma split_pieces (sep : ascii) (s : string) :
  forall piece, In piece (JS.split sep s) -> ~ In sep (list_ascii_of_string piece).
Proof.
  induction s as [|c s IH]; simpl.
  - intros piece [<- | []]. simpl. tauto.
  - destruct (Ascii.eqb c sep) eqn:Hc.
    + intros piece [<- | Hin]; [simpl; tauto | apply IH; exact Hin].
    + apply Ascii.eqb_neq in Hc.
      destruct (JS.split sep s) as [|first rest].
      * intros piece [<- | []]. simpl. intuition congruence.
      * intros piece [<- | Hin].
        -- simpl. intros [Heq | Hin]; [congruence|].
           apply (IH first); [left; reflexivity | exact Hin].
        -- apply IH. right. exact Hin.
Qed.

Lemma truthy_nonempty (s : string) : JS.truthy s = true -> s <> EmptyString.
Proof. unfold JS.truthy. destruct s; [discriminate | discriminate]. Qed.

Lemma parseLine_fields (line : string) (link : FileProcessor.ImportedLink) :
  FileProcessor.parseLine line = Some link ->
  FileProcessor.url link <> EmptyString
  /\ FileProcessor.target_domain link <> EmptyString
  /\ JS.trim (FileProcessor.url link) = FileProcessor.url link
  /\ JS.trim (FileProcessor.target_domain link) = FileProcessor.target_domain link
  /\ ~ In ","%char (list_ascii_of_string (FileProcessor.url link))
  /\ ~ In ","%char (list_ascii_of_string (FileProcessor.target_domain link)).
Proof.
  unfold FileProcessor.parseLine.
  destruct (negb (JS.truthy (JS.trim line))); [discriminate|].
  pose proof (split_pieces "," (JS.trim line)) as Hpieces.
  destruct (JS.split "," (JS.trim line)) as [|a [|b rest]]; simpl; try discriminate.
  destruct (JS.truthy (JS.trim a)) eqn:Ha; simpl; [|discriminate].
  destruct (JS.truthy (JS.trim b)) eqn:Hb; simpl; [|discriminate].
  destruct (negb (String.eqb (JS.trim a) EmptyString)
            && negb (String.eqb (JS.trim b) EmptyString)); [|discriminate].
  intros Heq. inversion Heq; subst; clear Heq. simpl.
  repeat split.
  - apply truthy_nonempty; exact Ha.
  - apply truthy_nonempty; exact Hb.
  - apply trim_idem.
  - apply trim_idem.
  - intros Hin. apply trim_chars in Hin. apply (Hpieces a); [left; reflexivity | exact Hin].
  - intros Hin. apply trim_chars in Hin.
    apply (Hpieces b); [right; left; reflexivity | exact Hin].
Qed.

Lemma collect_from (lines : list string) (link : FileProcessor.ImportedLink) :
  In link (FileProcessor.collect lines) ->
  exists line, In line lines /\ FileProcessor.parseLine line = Some link.
Proof.
  induction lines as [|line lines IH]; simpl; [tauto|].
  destruct (FileProcessor.parseLine line) as [l|] eqn:Hp.
  - intros [<- | Hin]; [eauto|]. destruct (IH Hin) as (line' & Hin' & Hp'). eauto.
  - intros Hin. destruct (IH Hin) as (line' & Hin' & Hp'). eauto.
Qed.

Lemma collect_length (lines : list string) :
  (length (FileProcessor.collect lines) <= length lines)%nat.
Proof.
  induction lines as [|line lines IH]; simpl; [lia|].
  destruct (FileProcessor.parseLine line); simpl; lia.
Qed.

Lemma filter_length_le {A : Type} (f : A -> bool) (l : list A) :
  (length (List.filter f l) <= length l)%nat.
Proof. induction l as [|a l IH]; simpl; [lia|]. destruct (f a); simpl; lia. Qed.

End TrimFacts.

(** X20. Every link that [processCSVManually] reads has a URL and a target
    domain that are not empty, are trimmed and contain no comma; and the file
    yields at most one link per line. *)
Theorem processCSVManually_links (fileContent : string) :
  (forall link, In link (FileProcessor.processCSVManually fileContent) ->
     FileProcessor.url link <> EmptyString
     /\ FileProcessor.target_domain link <> EmptyString
     /\ JS.trim (FileProcessor.url link) = FileProcessor.url link
     /\ JS.trim (FileProcessor.target_domain link) = FileProcessor.target_domain link
     /\ ~ In ","%char (list_ascii_of_string (FileProcessor.url link))
     /\ ~ In ","%char (list_ascii_of_string (FileProcessor.target_domain link)))
  /\ (length (FileProcessor.processCSVManually fileContent)
      <= length (JS.split (ascii_of_nat 10) fileContent))%nat.
Proof.
  unfold FileProcessor.processCSVManually, FileProcessor.keptLines. split.
  - intros link Hin. apply collect_from in Hin as (line & _ & Hp).
    eapply parseLine_fields; eauto.
  - etransitivity; [apply collect_length | apply filter_length_le].
Qed.

Section ValidateFacts.
Variable validUrl : string -> bool.

Lemma validate_lengths (links : list FileProcessor.ImportedLink) :
  (length (fst (FileProcessor.validateImportedLinks validUrl links))
   + length (snd (FileProcessor.validateImportedLinks validUrl links))
   = length links)%nat.
Proof.
  induction links as [|link links IH]; simpl; [reflexivity|].
  destruct (FileProcessor.validateImportedLinks validUrl links) as [valid invalid].
  simpl in IH.
  destruct (validUrl (FileProcessor.url link)); simpl; [|lia].
  destruct (JS.truthy (JS.trim (FileProcessor.url link))
            && JS.truthy (JS.trim (FileProcessor.target_domain link))); simpl; lia.
Qed.

Lemma validate_valid (links : list FileProcessor.ImportedLink) :
  fst (FileProcessor.validateImportedLinks validUrl links)
  = List.filter
      (fun link =>
         validUrl (FileProcessor.url link)
         && JS.truthy (JS.trim (FileProcessor.url link))
         && JS.truthy (JS.trim (FileProcessor.target_domain link)))
      links.
Proof.
  induction links as [|link links IH]; simpl; [reflexivity|].
  destruct (FileProcessor.validateImportedLinks validUrl links) as [valid invalid].
  simpl in IH.
  destruct (validUrl (FileProcessor.url link)); simpl; [|exact IH].
  destruct (JS.truthy (JS.trim (FileProcessor.url link))
            && JS.truthy (JS.trim (FileProcessor.target_domain link))); simpl;
    [rewrite IH; reflexivity | exact IH].
Qed.

End ValidateFacts.

(** X21. [validateImportedLinks] sorts every link into exactly one of its two
    lists: the valid links and the messages together are as many as the
    links, and the valid list keeps, in their order, exactly the links whose
    URL parses and whose URL and target domain are not blank. *)
Theorem validateImportedLinks_partition
    (validUrl : string -> bool) (links : list FileProcessor.ImportedLink) :
  (length (fst (FileProcessor.validateImportedLinks validUrl links))
   + length (snd (FileProcessor.validateImportedLinks validUrl links))
   = length links)%nat
  /\ fst (FileProcessor.validateImportedLinks validUrl links)
     = List.filter
         (fun link =>
            validUrl (FileProcessor.url link)
            && JS.truthy (JS.trim (FileProcessor.url link))
            && JS.truthy (JS.trim (FileProcessor.target_domain link)))
         links.
Proof. split; [apply validate_lengths | apply validate_valid]. Qed.

(** ** More on the analyser and the classifiers *)

(** X22. The rescue after a browser failure: when the browser throws and the
    proxy finds the link, the verdict carries the response code 200 and
    [indexable = true], and a class other than [not_found]; its status is
    Problem exactly when the proxied page is not indexable, so such a verdict
    says Problem and indexable at once. *)
Theorem rescue_after_exception
    (browser : Analyzer.Browser) (proxy : Analyzer.Proxy)
    (url targetDomain : string) (loadTime : Z) (e : BullMQService.Thrown) :
  Analyzer.navigation browser = Analyzer.NavThrows e ->
  Analyzer.linkFound (Analyzer.analyzeWithScrapeDo proxy url targetDomain url) = true ->
  let v := Analyzer.analyzeLink browser proxy url targetDomain loadTime in
  BullMQService.responseCode v = 200%Z
  /\ BullMQService.indexable v = true
  /\ BullMQService.r_linkType v <> not_found
  /\ (BullMQService.status v = BullMQService.Problem
      <-> Analyzer.p_indexable (Analyzer.analyzeWithScrapeDo proxy url targetDomain url)
          = Some false).
Proof.
  intros Hnav Hfound. cbv zeta.
  unfold Analyzer.analyzeLink, Analyzer.afterException. rewrite Hnav, Hfound.
  destruct (analyzeWithScrapeDo_shape proxy url targetDomain url)
    as [[err Herr] | (_ & _ & s & b & Hs & Hb & Hiff)].
  - rewrite Herr in Hfound. discriminate.
  - apply linkFound_class in Hfound as (t & Ht & Hne).
    unfold Analyzer.rescued. simpl. rewrite Hs, Hb, Ht.
    split; [reflexivity|]. split; [destruct b; reflexivity|]. split; [exact Hne|].
    rewrite Hiff. split; congruence.
Qed.

Lemma rescue_after_exception_witness :
  Analyzer.linkFound
    (Analyzer.analyzeWithScrapeDo Scenario.recoveringProxy Scenario.pageUrl
       "target.com" Scenario.pageUrl) = true
  /\ BullMQService.status
       (Analyzer.analyzeLink Scenario.crashingBrowser Scenario.recoveringProxy
          Scenario.pageUrl "target.com" 4200) = BullMQService.Problem
  /\ BullMQService.responseCode
       (Analyzer.analyzeLink Scenario.crashingBrowser Scenario.recoveringProxy
          Scenario.pageUrl "target.com" 4200) = 200%Z
  /\ BullMQService.indexable
       (Analyzer.analyzeLink Scenario.crashingBrowser Scenario.recoveringProxy
          Scenario.pageUrl "target.com" 4200) = true.
Proof.
  assert (Analyzer.linkFound
            (Analyzer.analyzeWithScrapeDo Scenario.recoveringProxy Scenario.pageUrl
               "target.com" Scenario.pageUrl) = true) as Hfound
    by (vm_compute; reflexivity).
  split; [exact Hfound|]. split; [vm_compute; reflexivity|].
  destruct (rescue_after_exception Scenario.crashingBrowser Scenario.recoveringProxy
              Scenario.pageUrl "target.com" 4200
              (BullMQService.ErrorObject "Navigation timeout of 60000 ms exceeded")
              eq_refl Hfound) as (Hcode & Hix & _).
  split; [exact Hcode | exact Hix].
Defined.

Section ScriptOnly.
Import LinkAnalyzer.

Lemma targetLinks_rel (carriers : list Carrier) (domain : string) :
  forall link, In link (targetLinks carriers domain) ->
               exists c, In c carriers /\ rel link = relOf c.
Proof.
  induction carriers as [|c cs IH]; simpl; [tauto|].
  intros link Hin.
  destruct (hostname c) as [h|].
  - destruct (hostMatches h domain).
    + destruct Hin as [<- | Hin]; [exists c; simpl; auto|].
      destruct (IH link Hin) as (c' & Hc' & Hrel). eauto.
    + destruct (IH link Hin) as (c' & Hc' & Hrel). eauto.
  - destruct (IH link Hin) as (c' & Hc' & Hrel). eauto.
Qed.

Lemma existsb_none {A : Type} (f : A -> bool) (l : list A) :
  (forall x, In x l -> f x = false) -> existsb f l = false.
Proof.
  induction l as [|a l IH]; simpl; [reflexivity|].
  intros Hall. rewrite (Hall a) by (left; reflexivity).
  apply IH. intros x Hx. apply Hall. right. exact Hx.
Qed.

End ScriptOnly.

(** X23. Candidates read from script bodies and form actions carry no rel:
    when every carrier on the page is of one of these two kinds and at least
    one points to the target, the link is reported as dofollow. *)
Theorem script_and_form_links_are_dofollow
    (carriers : list LinkAnalyzer.Carrier) (domain : string) :
  (forall c, In c carriers ->
             LinkAnalyzer.ctype c = LinkAnalyzer.javascript
             \/ LinkAnalyzer.ctype c = LinkAnalyzer.form_action) ->
  LinkAnalyzer.targetLinks carriers domain <> [] ->
  found (LinkAnalyzer.findTargetLinks (Some carriers) domain) = true
  /\ linkType (LinkAnalyzer.findTargetLinks (Some carriers) domain) = dofollow.
Proof.
  intros Hkind Hne.
  destruct (findTargetLinks_precedence carriers domain Hne) as [Hf Ht].
  split; [exact Hf|]. rewrite Ht.
  assert (forall token link,
             In link (LinkAnalyzer.targetLinks carriers domain) ->
             LinkAnalyzer.relHas token link
             = JS.includes EmptyString token) as Hrel.
  { intros token link Hin.
    destruct (targetLinks_rel carriers domain link Hin) as (c & Hc & Hr).
    unfold LinkAnalyzer.relHas. rewrite Hr. unfold LinkAnalyzer.relOf.
    destruct (Hkind c Hc) as [-> | ->]; reflexivity. }
  unfold LinkAnalyzer.unionPrecedence.
  rewrite (existsb_none (LinkAnalyzer.relHas "sponsored"))
    by (intros x Hx; rewrite (Hrel _ _ Hx); reflexivity).
  rewrite (existsb_none (LinkAnalyzer.relHas "ugc"))
    by (intros x Hx; rewrite (Hrel _ _ Hx); reflexivity).
  rewrite (existsb_none (LinkAnalyzer.relHas "nofollow"))
    by (intros x Hx; rewrite (Hrel _ _ Hx); reflexivity).
  reflexivity.
Qed.

Lemma script_and_form_links_are_dofollow_witness :
  LinkAnalyzer.targetLinks [Scenario.scriptCarrier] "target.com" <> []
  /\ found (LinkAnalyzer.findTargetLinks (Some [Scenario.scriptCarrier]) "target.com")
     = true
  /\ linkType (LinkAnalyzer.findTargetLinks (Some [Scenario.scriptCarrier]) "target.com")
     = dofollow.
Proof.
  assert (LinkAnalyzer.targetLinks [Scenario.scriptCarrier] "target.com" <> []) as Hne
    by (vm_compute; discriminate).
  split; [exact Hne|].
  apply (script_and_form_links_are_dofollow [Scenario.scriptCarrier] "target.com").
  - intros c [<- | []]. left. reflexivity.
  - exact Hne.
Defined.

(** ** The matcher and the anchor pass of the proxy extractor *)
Section MatcherFacts.
Import Regex.




End MatcherFacts.




(** ** Smaller facts on the worker loop and the proxy request *)



(** X26. A response of [scrapePage] is a success exactly when the key is
    configured and the request was answered with a status from 200 to 299; it
    then carries that status and the body.  Every other response carries no
    body and an error message. *)
Theorem scrapePage_success_or_error
    (API_KEY : string) (outcome : ScrapeDoService.FetchOutcome) (elapsed : Z) :
  let r := ScrapeDoService.scrapePage API_KEY outcome elapsed in
  (ScrapeDoService.success r = true
   /\ ScrapeDoService.isAvailable API_KEY = true
   /\ exists status body,
       outcome = ScrapeDoService.Responded status body
       /\ (200 <= status <= 299)%Z
       /\ ScrapeDoService.statusCode r = Some status
       /\ ScrapeDoService.html r = Some body)
  \/ (ScrapeDoService.success r = false
      /\ ScrapeDoService.html r = None
      /\ (ScrapeDoService.isAvailable API_KEY = false
          \/ (forall status body,
                 outcome = ScrapeDoService.Responded status body ->
                 (status < 200 \/ 299 < status)%Z))
      /\ exists message, ScrapeDoService.error r = Some message).
Proof.
  cbv zeta. unfold ScrapeDoService.scrapePage.
  destruct (ScrapeDoService.isAvailable API_KEY) eqn:Hk; simpl.
  - destruct outcome as [status body | | message | ]; simpl.
    + unfold ScrapeDoService.responseOk.
      destruct (200 <=? status)%Z eqn:Hlo; destruct (status <=? 299)%Z eqn:Hhi; simpl.
      * left. apply Z.leb_le in Hlo, Hhi. repeat split; auto.
        exists status, body. repeat split; auto.
      * right. apply Z.leb_gt in Hhi. repeat split; eauto.
        right. intros s b Heq. inversion Heq; subst. lia.
      * right. apply Z.leb_gt in Hlo. repeat split; eauto.
        right. intros s b Heq. inversion Heq; subst. lia.
      * right. apply Z.leb_gt in Hlo. repeat split; eauto.
        right. intros s b Heq. inversion Heq; subst. lia.
    + right. repeat split; eauto. right. intros s b Heq. discriminate.
    + right. repeat split; eauto. right. intros s b Heq. discriminate.
    + right. repeat split; eauto. right. intros s b Heq. discriminate.
  - right. repeat split; eauto.
Qed.

(** ** Google Sheets items in the Redis queue *)

(** X27. A Google Sheets item is never analysed by the queue worker: its
    result does not depend on the analyser, is a success with the fixed note,
    updates no link row, enters the history, and is announced as
    [sheets_link_updated] with status OK. *)
Theorem sheets_item_not_analysed
    (memberLt : QueueService.QueueItem -> QueueService.QueueItem -> bool)
    (rows : string -> QueueService.JobType -> list QueueWorker.RowStatus)
    (analyze analyze' : string -> string
                        -> BullMQService.Thrown + BullMQService.LinkAnalysisResult)
    (clock : Z) (queueItem : QueueService.QueueItem)
    (updateThrows : bool) (history : list QueueWorker.AnalysisResult)
    (st : QueueService.State) :
  QueueService.type queueItem = QueueService.google_sheets ->
  let result := QueueWorker.analyzeLink analyze clock queueItem in
  QueueWorker.analyzeLink analyze' clock queueItem = result
  /\ QueueWorker.a_success result = true
  /\ QueueWorker.a_result result = Some QueueWorker.SheetsHandled
  /\ QueueWorker.saveResult updateThrows result history
     = (None, QueueWorker.lTrim (result :: history))
  /\ hd_error (QueueWorker.sendRealTimeUpdate memberLt rows result st)
     = Some (QueueWorker.sheets_link_updated
               (QueueService.projectId queueItem) (QueueService.sheetId queueItem)
               BullMQService.OK).
Proof.
  intros Hty. cbv zeta.
  unfold QueueWorker.analyzeLink, QueueWorker.saveResult, QueueWorker.sendRealTimeUpdate.
  rewrite Hty. simpl. rewrite ?Hty. repeat split; reflexivity.
Qed.

Lemma sheets_item_not_analysed_witness :
  QueueWorker.analyzeLink Scenario.findsNothing 1700000009000 Scenario.sheetsItem
  = QueueWorker.analyzeLink Scenario.crashes 1700000009000 Scenario.sheetsItem
  /\ QueueWorker.a_success
       (QueueWorker.analyzeLink Scenario.crashes 1700000009000 Scenario.sheetsItem)
     = true.
Proof.
  destruct (sheets_item_not_analysed Scenario.anyOrder Scenario.noRows
              Scenario.crashes Scenario.findsNothing 1700000009000 Scenario.sheetsItem
              false [] QueueService.empty eq_refl) as (Hsame & Hok & _).
  split; [exact Hsame | exact Hok].
Defined.

(** ** The two indexability checks *)

Lemma metaRobotsContent_present (html m : string) :
  ScrapeDoService.metaRobotsContent html = Some m -> present (Some m) = Some m.
Proof.
  unfold ScrapeDoService.metaRobotsContent, present, nonEmpty.
  destruct (Regex.search ScrapeDoService.metaRobotsRegex html) as [r|]; [|discriminate].
  destruct (JS.truthy (nth 0 (Regex.captures r) EmptyString)) eqn:Ht; [|discriminate].
  intros [= <-]. rewrite Ht. reflexivity.
Qed.

(** X28. The proxy's indexability check against the browser's, on the same
    robots content and without an X-Robots-Tag header: whenever the proxy's
    check reports the page non-indexable so does the browser's (with any
    header), and the two disagree exactly when the content mentions [none]
    but not [noindex], which only the browser's check treats as blocking. *)
Theorem proxy_indexability_misses_none (html : string) :
  let robotsMeta := ScrapeDoService.metaRobotsContent html in
  (forall xRobotsTag,
      indexable (ScrapeDoService.checkIndexabilityFromHtml html) = false ->
      indexable (LinkAnalyzer.checkIndexability robotsMeta xRobotsTag) = false)
  /\ (indexable (ScrapeDoService.checkIndexabilityFromHtml html)
      <> indexable (LinkAnalyzer.checkIndexability robotsMeta None)
      <-> exists m,
          robotsMeta = Some m
          /\ JS.includes (JS.toLowerCase m) "none" = true
          /\ JS.includes (JS.toLowerCase m) "noindex" = false).
Proof.
  cbv zeta. unfold ScrapeDoService.checkIndexabilityFromHtml, LinkAnalyzer.checkIndexability.
  destruct (ScrapeDoService.metaRobotsContent html) as [m|] eqn:Hm.
  - rewrite (metaRobotsContent_present html m Hm).
    unfold LinkAnalyzer.blocksIndexing, LinkAnalyzer.headerIndexability.
    destruct (JS.includes (JS.toLowerCase m) "noindex") eqn:Hno;
      destruct (JS.includes (JS.toLowerCase m) "none") eqn:Hne;
      destruct (JS.includes (JS.toLowerCase m) "nofollow") eqn:Hnf; simpl;
      (split; [intros x; try discriminate; reflexivity|]);
      (split;
       [intros Hd; try (exfalso; apply Hd; reflexivity);
        exists m; repeat split; auto
       |intros (m' & [= <-] & Hne' & Hno'); try discriminate; congruence]).
  - simpl. split; [intros x; discriminate|].
    split; [intros Hd; exfalso; apply Hd; reflexivity | intros (m' & Hd & _); discriminate].
Qed.
